(** * criage-mcp: the package manager core (package_manager.go, types.go)

    A shallow embedding of the resolution-and-state core of the criage MCP
    server: the rate limiter, the repository resolver, the search fan-out and
    the install / uninstall / update life cycle over the in-memory registry
    and its two persisted partitions.

    Everything the Go code obtains from outside the process (HTTP replies,
    file-system outcomes, the JSON decoders, the clock, the platform) is read
    from an explicit [Env] record, so that every function below is a total,
    executable function of its arguments, the environment and the state. *)

From Stdlib Require Import ZArith List Permutation Sorted.
From Stdlib Require Import Floats.SpecFloat.
From stdpp Require Import gmap strings list fin_maps pretty.

Open Scope string_scope.
Open Scope Z_scope.

(* ===================================================================== *)
(** ** Data model (types.go) *)
(* ===================================================================== *)

(** [PackageInfo]: an installed-package record. [InstallDate] is a
    timestamp read from the clock, [Size] an int64. *)
Record PackageInfo := {
  Name : string;
  Version : string;
  Description : string;
  Author : string;
  License : string;
  InstallDate : Z;
  InstallPath : string;
  Global : bool;
  Dependencies : gmap string string;
  Size : Z;
  Files : list string;
  Scripts : gmap string string
}.

(** [SearchResult]; [sr_Score] is the float64 relevance score. *)
Record SearchResult := {
  sr_Name : string;
  sr_Version : string;
  sr_Description : string;
  sr_Author : string;
  sr_Downloads : Z;
  sr_Updated : Z;
  sr_Score : spec_float
}.

(** [PackageManifest], restricted to the fields the package manager reads. *)
Record PackageManifest := {
  m_Name : string;
  m_Version : string;
  m_Description : string;
  m_Author : string;
  m_License : string;
  m_Dependencies : gmap string string;
  m_Files : list string;
  m_Scripts : gmap string string
}.

(** [Repository] as the package manager uses it (the token field is
    [AuthToken] in package_manager.go and in the tests). *)
Record Repository := {
  repo_Name : string;
  repo_URL : string;
  repo_Priority : Z;
  repo_Enabled : bool;
  repo_AuthToken : string
}.

Record RepositoryFile := {
  rf_OS : string;
  rf_Arch : string;
  rf_Format : string;
  rf_Filename : string;
  rf_Size : Z;
  rf_Checksum : string;
  rf_URL : string
}.

Record RepositoryVersion := {
  rv_Version : string;
  rv_Description : string;
  rv_Files : list RepositoryFile;
  rv_Size : Z;
  rv_Checksum : string
}.

Record RepositoryPackage := {
  rp_Name : string;
  rp_Description : string;
  rp_Author : string;
  rp_License : string;
  rp_Versions : list RepositoryVersion
}.

Record Config := {
  Repositories : list Repository;
  GlobalPath : string;
  LocalPath : string;
  CachePath : string;
  TempPath : string
}.

(* ===================================================================== *)
(** ** Errors *)
(* ===================================================================== *)

(** One constructor per [fmt.Errorf] / error return site. The wrapping
    sites of the life-cycle operations carry the error they wrap. *)
Inductive error :=
  (* findInRepository *)
  | ErrTransport
  | ErrStatus (code : Z)
  | ErrDecode
  | ErrNotInRepository
  | ErrVersionNotFound (version : string)
  | ErrFileNotFound (osName arch : string)
  (* findPackage *)
  | ErrPackageNotFound (packageName : string)
  (* searchInRepository *)
  | ErrSearch
  (* file primitives *)
  | ErrNotExist
  | ErrIO
  | ErrJSON
  (* InstallPackage *)
  | ErrAlreadyInstalled (packageName version : string)
  | ErrResolve (cause : error)
  | ErrDownload
  | ErrExtract
  | ErrManifest
  | ErrRemoveOld
  | ErrMkdir
  | ErrCopy
  | ErrSave (cause : error)
  (* UninstallPackage *)
  | ErrNotInstalled (packageName : string)
  | ErrRemoveFiles
  | ErrRemoveInfo (cause : error)
  (* UpdatePackage *)
  | ErrNoUpdates (cause : error)
  | ErrAlreadyCurrent (packageName version : string).

(** A Go [(value, error)] pair: exactly one side is meaningful. *)
Inductive result (A : Type) :=
  | Ok (a : A)
  | Err (e : error).
Arguments Ok {A} a.
Arguments Err {A} e.

Definition is_Ok {A} (r : result A) : bool :=
  match r with Ok _ => true | Err _ => false end.

(* ===================================================================== *)
(** ** The outside world *)
(* ===================================================================== *)

(** An outbound GET: the URL and the value of the Authorization header
    ([None] when the header is not set). *)
Record Request := {
  req_url : string;
  req_authorization : option string
}.

(** What [httpClient.Do] followed by decoding the body gives. A request
    that cannot be built or sent is [TransportFailure]; otherwise the
    status code comes with the decoded envelope, [None] when the body does
    not decode. *)
Inductive HttpReply (A : Type) :=
  | TransportFailure
  | Reply (status : Z) (body : option A).
Arguments TransportFailure {A}.
Arguments Reply {A} status body.

(** [{success, data}] of GET /api/v1/packages/{name}; [pe_Data = None] is
    a null [data]. *)
Record PackageEnvelope := {
  pe_Success : bool;
  pe_Data : option RepositoryPackage
}.

(** [{success, data: {results}}] of GET /api/v1/search. *)
Record SearchEnvelope := {
  se_Success : bool;
  se_Results : list SearchResult
}.

(** The content of an existing partition file (packages.json) as the code
    can see it. [Unreadable]: [os.ReadFile] fails on it. [Bytes e d]: the
    read succeeds, [json.Unmarshal] reports an error iff [e], and leaves the
    map [d] in the target variable ([None] is the nil map: a [null]
    document, or a syntax error, which is detected before anything is
    stored). *)
Inductive file :=
  | Unreadable
  | Bytes (decode_error : bool) (decoded : option (gmap string PackageInfo)).

(** How an [os.WriteFile] ends: the new content is in place; or the call
    fails before touching the file; or it fails after truncating it, which
    leaves a proper prefix of a JSON object, never a valid document. *)
Inductive write_outcome :=
  | WriteOk
  | WriteRefused
  | WriteTruncated.

(** How [copyFiles] ends: [CopyFailed written] is a failure after the
    files [written] reached the destination. *)
Inductive copy_outcome :=
  | CopyOk
  | CopyFailed (written : gmap string string).

Record Env := {
  GOARCH : string;
  GOOS : string;
  (** [time.Now()] *)
  now : Z;
  (** [filepath.Join] of two components *)
  filepath_Join : string -> string -> string;
  (** the package and search endpoints behind [httpClient.Do] *)
  http_package : Request -> HttpReply PackageEnvelope;
  http_search : Request -> HttpReply SearchEnvelope;
  (** [downloadPackage url packageName version]: the bytes written to the
      temporary file, [None] on any failure *)
  http_download : string -> string -> string -> option string;
  (** the archive codec behind [extractArchive]: the tree an archive
      unpacks to, [None] when extraction fails *)
  archive_codec : string -> option (gmap string string);
  (** [json.Unmarshal] into a [PackageManifest] *)
  json_manifest : string -> option PackageManifest;
  (** [json.MarshalIndent] of a partition document succeeds *)
  json_marshal_ok : gmap string PackageInfo -> bool;
  os_RemoveAll_ok : string -> bool;
  os_MkdirAll_ok : string -> bool;
  os_copy : string -> copy_outcome;
  os_WriteFile : string -> write_outcome
}.

(* ===================================================================== *)
(** ** Resolver: findInRepository, findPackage *)
(* ===================================================================== *)

Definition package_request (repo : Repository) (packageName : string) : Request :=
  {| req_url := repo_URL repo ++ "/api/v1/packages/" ++ packageName;
     req_authorization :=
       if decide (repo_AuthToken repo = "") then None
       else Some ("Bearer " ++ repo_AuthToken repo) |}.

(** Version selection: the last entry when no version is asked for, else
    the first entry with that version string. *)
Definition select_version (versions : list RepositoryVersion) (version : string)
  : option RepositoryVersion :=
  if decide (version = "") then last versions
  else List.find (fun v => bool_decide (rv_Version v = version)) versions.

(** File selection: the first file for the requested platform. *)
Definition select_file (files : list RepositoryFile) (osName arch : string)
  : option RepositoryFile :=
  List.find (fun f => bool_decide (rf_OS f = osName) && bool_decide (rf_Arch f = arch)) files.

Definition empty_strings : gmap string string := ∅.

Definition findInRepository (env : Env) (repo : Repository)
    (packageName version arch osName : string) : result (PackageInfo * string) :=
  match http_package env (package_request repo packageName) with
  | TransportFailure => Err ErrTransport
  | Reply status body =>
    if negb (status =? 200) then Err (ErrStatus status) else
    match body with
    | None => Err ErrDecode
    | Some apiResp =>
      match pe_Success apiResp, pe_Data apiResp with
      | true, Some pkg =>
        match select_version (rp_Versions pkg) version with
        | None => Err (ErrVersionNotFound version)
        | Some selectedVersion =>
          match select_file (rv_Files selectedVersion) osName arch with
          | None => Err (ErrFileNotFound osName arch)
          | Some selectedFile =>
            Ok ({| Name := rp_Name pkg;
                   Version := rv_Version selectedVersion;
                   Description := rp_Description pkg;
                   Author := rp_Author pkg;
                   License := rp_License pkg;
                   InstallDate := 0;
                   InstallPath := "";
                   Global := false;
                   Dependencies := empty_strings;
                   Size := rf_Size selectedFile;
                   Files := [];
                   Scripts := empty_strings |},
                repo_URL repo ++ "/api/v1/download/" ++ rp_Name pkg ++ "/"
                  ++ rv_Version selectedVersion ++ "/" ++ rf_Filename selectedFile)
          end
        end
      | _, _ => Err ErrNotInRepository
      end
    end
  end.

(** The loop of [findPackage] over [pm.config.Repositories], in slice
    order: disabled repositories are skipped, an error moves on to the next
    repository, the first success returns. *)
Fixpoint findPackage_loop (env : Env) (repos : list Repository)
    (packageName version arch osName : string) : result (PackageInfo * string) :=
  match repos with
  | [] => Err (ErrPackageNotFound packageName)
  | repo :: rest =>
    if negb (repo_Enabled repo) then
      findPackage_loop env rest packageName version arch osName
    else
      match findInRepository env repo packageName version arch osName with
      | Ok found => Ok found
      | Err _ => findPackage_loop env rest packageName version arch osName
      end
  end.

Definition findPackage (env : Env) (cfg : Config)
    (packageName version arch osName : string) : result (PackageInfo * string) :=
  findPackage_loop env (Repositories cfg) packageName version arch osName.

(* ===================================================================== *)
(** ** State: the package manager and the disk *)
(* ===================================================================== *)

(** The fields of [PackageManager] that carry state. The HTTP client and
    the rate limiter sit behind [Env]; the model is sequential, so the
    mutex is not represented. *)
Record PackageManager := {
  config : Config;
  installedPackages : gmap string PackageInfo
}.

(** The part of the file system the package manager touches: files by
    path (an absent key is a file that does not exist) and directory
    trees by path, each tree mapping a relative file name to its bytes.
    The temporary archive and the temporary extraction directory are
    removed by deferred calls on every exit, so they are not kept here. *)
Record Disk := {
  files : gmap string file;
  dirs : gmap string (gmap string string)
}.

Record World := {
  manager : PackageManager;
  disk : Disk
}.

Definition set_installed (f : gmap string PackageInfo -> gmap string PackageInfo)
    (w : World) : World :=
  {| manager := {| config := config (manager w);
                   installedPackages := f (installedPackages (manager w)) |};
     disk := disk w |}.

Definition set_files (f : gmap string file -> gmap string file) (w : World) : World :=
  {| manager := manager w;
     disk := {| files := f (files (disk w)); dirs := dirs (disk w) |} |}.

Definition set_dirs
    (f : gmap string (gmap string string) -> gmap string (gmap string string))
    (w : World) : World :=
  {| manager := manager w;
     disk := {| files := files (disk w); dirs := f (dirs (disk w)) |} |}.

(** A computation that may fail and that changes the world; after a
    failure the world is as the failing step left it. *)
Definition M (A : Type) : Type := World -> result A * World.

Definition ret {A} (a : A) : M A := fun w => (Ok a, w).
Definition fail {A} (e : error) : M A := fun w => (Err e, w).
Definition bind {A B} (c : M A) (k : A -> M B) : M B :=
  fun w => match c w with
           | (Ok a, w') => k a w'
           | (Err e, w') => (Err e, w')
           end.
Definition gets {A} (f : World -> A) : M A := fun w => (Ok (f w), w).
Definition modify (f : World -> World) : M unit := fun w => (Ok tt, f w).
(** [if err != nil { return fmt.Errorf("...: %w", err) }] *)
Definition wrap {A} (f : error -> error) (c : M A) : M A :=
  fun w => match c w with
           | (Ok a, w') => (Ok a, w')
           | (Err e, w') => (Err (f e), w')
           end.
Definition lift {A} (r : result A) : M A := fun w => (r, w).

Declare Scope go_scope.
Delimit Scope go_scope with go.
Notation "x <- c ;; k" := (bind c (fun x => k))
  (at level 100, c at next level, right associativity) : go_scope.
Notation "c ;; k" := (bind c (fun _ => k))
  (at level 100, right associativity) : go_scope.
Open Scope go_scope.

(* ===================================================================== *)
(** ** Registry store: the in-memory map and the partition files *)
(* ===================================================================== *)

Definition getInstalledPackage (pm : PackageManager) (packageName : string)
  : option PackageInfo :=
  installedPackages pm !! packageName.

(** The packages.json of a scope partition. *)
Definition packagesPath (env : Env) (cfg : Config) (global : bool) : string :=
  if global then filepath_Join env (GlobalPath cfg) "packages.json"
  else filepath_Join env (LocalPath cfg) "packages.json".

(** [loadPackagesFromFile]: every entry of the document is stored under
    its document key, replacing an entry already held under that key. *)
Definition loadPackagesFromFile (path : string) : M unit :=
  fun w =>
    match files (disk w) !! path with
    | None => (Err ErrNotExist, w)
    | Some Unreadable => (Err ErrIO, w)
    | Some (Bytes true _) => (Err ErrJSON, w)
    | Some (Bytes false packages) =>
      (Ok tt, set_installed (fun installed => default ∅ packages ∪ installed) w)
    end.

Definition os_IsNotExist (e : error) : bool :=
  match e with ErrNotExist => true | _ => false end.

(** [if err := load(path); err != nil && !os.IsNotExist(err) { return err }] *)
Definition load_partition (path : string) : M unit :=
  fun w =>
    match loadPackagesFromFile path w with
    | (Ok _, w') => (Ok tt, w')
    | (Err e, w') => if os_IsNotExist e then (Ok tt, w') else (Err e, w')
    end.

Definition loadInstalledPackages (env : Env) : M unit :=
  cfg <- gets (fun w => config (manager w)) ;;
  load_partition (packagesPath env cfg true) ;;
  load_partition (packagesPath env cfg false).

(** The map that [savePackageInfo] and [removePackageInfo] start from:
    a read error leaves it nil, a decoding error is ignored and leaves
    whatever the decoder stored. *)
Definition read_packages (d : Disk) (path : string) : option (gmap string PackageInfo) :=
  match files d !! path with
  | Some (Bytes _ decoded) => decoded
  | _ => None
  end.

(** [json.MarshalIndent] then [os.WriteFile] of a partition document. *)
Definition write_packages (env : Env) (path : string)
    (packages : gmap string PackageInfo) : M unit :=
  if negb (json_marshal_ok env packages) then fail ErrJSON else
  match os_WriteFile env path with
  | WriteOk =>
    modify (set_files (fun fs => <[path := Bytes false (Some packages)]> fs))
  | WriteRefused => fail ErrIO
  | WriteTruncated =>
    modify (set_files (fun fs => <[path := Bytes true None]> fs)) ;; fail ErrIO
  end.

Definition savePackageInfo (env : Env) (info : PackageInfo) : M unit :=
  cfg <- gets (fun w => config (manager w)) ;;
  let packagesPath := packagesPath env cfg (Global info) in
  existing <- gets (fun w => read_packages (disk w) packagesPath) ;;
  let packages := default ∅ existing in
  write_packages env packagesPath (<[Name info := info]> packages).

Definition removePackageInfo (env : Env) (packageName : string) (global : bool) : M unit :=
  cfg <- gets (fun w => config (manager w)) ;;
  let packagesPath := packagesPath env cfg global in
  existing <- gets (fun w => read_packages (disk w) packagesPath) ;;
  match existing with
  | None => ret tt
  | Some packages => write_packages env packagesPath (delete packageName packages)
  end.

Definition getInstallPath (env : Env) (cfg : Config) (packageName : string)
    (global : bool) : string :=
  if global then filepath_Join env (GlobalPath cfg) packageName
  else filepath_Join env (LocalPath cfg) packageName.

(* ===================================================================== *)
(** ** File-system and network steps of the life cycle *)
(* ===================================================================== *)

Definition downloadPackage (env : Env) (url packageName version : string) : M string :=
  match http_download env url packageName version with
  | Some archive => ret archive
  | None => fail ErrIO
  end.

(** [extractArchive] unpacks through the codec of the environment and
    yields the extracted tree. The body in package_manager.go is a
    placeholder that returns an error for every archive
    ([unimplemented_codec] below); the properties of the life cycle are
    stated for an arbitrary codec, and so hold for that one too. *)
Definition extractArchive (env : Env) (archive : string) : M (gmap string string) :=
  match archive_codec env archive with
  | Some tree => ret tree
  | None => fail ErrExtract
  end.

(** The codec package_manager.go ships: extraction is not implemented
    and always reports an error. *)
Definition unimplemented_codec : string -> option (gmap string string) :=
  fun _ => None.

(** Reads and decodes [criage.yaml] at the root of the tree. *)
Definition loadManifestFromDir (env : Env) (dir : gmap string string) : M PackageManifest :=
  match dir !! "criage.yaml" with
  | None => fail ErrNotExist
  | Some data =>
    match json_manifest env data with
    | None => fail ErrJSON
    | Some manifest => ret manifest
    end
  end.

Definition os_RemoveAll (env : Env) (path : string) : M unit :=
  if os_RemoveAll_ok env path then modify (set_dirs (fun ds => delete path ds))
  else fail ErrIO.

Definition os_MkdirAll (env : Env) (path : string) : M unit :=
  if os_MkdirAll_ok env path then
    modify (set_dirs (fun ds => match ds !! path with
                                | Some _ => ds
                                | None => <[path := ∅]> ds
                                end))
  else fail ErrIO.

(** [copyFiles]: the files of [srcDir] are created in [destDir], over the
    ones already there. *)
Definition copyFiles (env : Env) (srcDir : gmap string string) (destDir : string) : M unit :=
  match os_copy env destDir with
  | CopyOk =>
    modify (set_dirs (fun ds => <[destDir := srcDir ∪ default ∅ (ds !! destDir)]> ds))
  | CopyFailed written =>
    modify (set_dirs (fun ds => <[destDir := written ∪ default ∅ (ds !! destDir)]> ds)) ;;
    fail ErrIO
  end.

(** Two's-complement wrap-around of int64 arithmetic. *)
Definition int64 (z : Z) : Z := (z + 2 ^ 63) mod 2 ^ 64 - 2 ^ 63.

Definition calculateDirSize (d : Disk) (dir : string) : Z :=
  map_fold (fun _ data size => int64 (size + Z.of_nat (String.length data)))
           0 (default ∅ (dirs d !! dir)).

(* ===================================================================== *)
(** ** Life cycle: InstallPackage, UninstallPackage, UpdatePackage *)
(* ===================================================================== *)

(** The already-installed check that opens [InstallPackage]. *)
Definition check_not_installed (packageName version : string) (force : bool) : M unit :=
  if negb force then
    installed <- gets (fun w => getInstalledPackage (manager w) packageName) ;;
    match installed with
    | Some info =>
      if bool_decide (version = "") || bool_decide (Version info = version)
      then fail (ErrAlreadyInstalled packageName (Version info))
      else ret tt
    | None => ret tt
    end
  else ret tt.

Definition InstallPackage (env : Env) (packageName version : string)
    (global force dev : bool) (arch osName : string) : M unit :=
  check_not_installed packageName version force ;;
  let arch := if bool_decide (arch = "") then GOARCH env else arch in
  let osName := if bool_decide (osName = "") then GOOS env else osName in
  cfg <- gets (fun w => config (manager w)) ;;
  found <- wrap ErrResolve (lift (findPackage env cfg packageName version arch osName)) ;;
  archive <- wrap (fun _ => ErrDownload)
               (downloadPackage env (snd found) packageName (Version (fst found))) ;;
  tempDir <- wrap (fun _ => ErrExtract) (extractArchive env archive) ;;
  manifest <- wrap (fun _ => ErrManifest) (loadManifestFromDir env tempDir) ;;
  let installPath := getInstallPath env cfg packageName global in
  (if force then wrap (fun _ => ErrRemoveOld) (os_RemoveAll env installPath) else ret tt) ;;
  wrap (fun _ => ErrMkdir) (os_MkdirAll env installPath) ;;
  wrap (fun _ => ErrCopy) (copyFiles env tempDir installPath) ;;
  size <- gets (fun w => calculateDirSize (disk w) installPath) ;;
  let packageInfo :=
    {| Name := m_Name manifest;
       Version := m_Version manifest;
       Description := m_Description manifest;
       Author := m_Author manifest;
       License := m_License manifest;
       InstallDate := now env;
       InstallPath := installPath;
       Global := global;
       Dependencies := m_Dependencies manifest;
       Size := size;
       Files := m_Files manifest;
       Scripts := m_Scripts manifest |} in
  wrap ErrSave (savePackageInfo env packageInfo) ;;
  modify (set_installed (fun installed => <[packageName := packageInfo]> installed)).

Definition UninstallPackage (env : Env) (packageName : string) (global purge : bool) : M unit :=
  installed <- gets (fun w => getInstalledPackage (manager w) packageName) ;;
  match installed with
  | None => fail (ErrNotInstalled packageName)
  | Some packageInfo =>
    wrap (fun _ => ErrRemoveFiles) (os_RemoveAll env (InstallPath packageInfo)) ;;
    wrap ErrRemoveInfo (removePackageInfo env packageName global) ;;
    modify (set_installed (fun installed => delete packageName installed))
  end.

Definition UpdatePackage (env : Env) (packageName : string) : M unit :=
  installed <- gets (fun w => getInstalledPackage (manager w) packageName) ;;
  match installed with
  | None => fail (ErrNotInstalled packageName)
  | Some currentInfo =>
    cfg <- gets (fun w => config (manager w)) ;;
    found <- wrap ErrNoUpdates
               (lift (findPackage env cfg packageName "" (GOARCH env) (GOOS env))) ;;
    let latestInfo := fst found in
    if bool_decide (Version currentInfo = Version latestInfo) then
      fail (ErrAlreadyCurrent packageName (Version currentInfo))
    else
      InstallPackage env packageName (Version latestInfo) (Global currentInfo)
                     true false "" ""
  end.

(* ===================================================================== *)
(** ** Search: searchInRepository, SearchPackages *)
(* ===================================================================== *)

Definition search_request (repo : Repository) (query : string) : Request :=
  {| req_url := repo_URL repo ++ "/api/v1/search?q=" ++ query;
     req_authorization :=
       if decide (repo_AuthToken repo = "") then None
       else Some ("Bearer " ++ repo_AuthToken repo) |}.

Definition searchInRepository (env : Env) (repo : Repository) (query : string)
  : result (list SearchResult) :=
  match http_search env (search_request repo query) with
  | TransportFailure => Err ErrTransport
  | Reply status body =>
    if negb (status =? 200) then Err (ErrStatus status) else
    match body with
    | None => Err ErrDecode
    | Some apiResp =>
      if negb (se_Success apiResp) then Err ErrSearch
      else Ok (se_Results apiResp)
    end
  end.

(** [sort.Slice(x, less)] is the library sort of Go: not stable, and
    specified only up to "a permutation of [x] ordered by [less]". It is
    rendered by an insertion sort driven by the same [less]; the results
    below use nothing beyond that contract. *)
Fixpoint sort_insert {A} (less : A -> A -> bool) (x : A) (l : list A) : list A :=
  match l with
  | [] => [x]
  | y :: l' => if less x y then x :: y :: l' else y :: sort_insert less x l'
  end.

Definition sort_Slice {A} (less : A -> A -> bool) (l : list A) : list A :=
  fold_right (sort_insert less) [] l.

(** [allResults[i].Score > allResults[j].Score] on float64. *)
Definition score_greater (a b : SearchResult) : bool :=
  SFltb (sr_Score b) (sr_Score a).

(** One iteration of the loop of [SearchPackages]. *)
Definition search_step (env : Env) (query : string)
    (allResults : list SearchResult) (repo : Repository) : list SearchResult :=
  if negb (repo_Enabled repo) then allResults
  else match searchInRepository env repo query with
       | Err _ => allResults
       | Ok results => allResults ++ results
       end.

Definition SearchPackages (env : Env) (cfg : Config) (query : string)
  : result (list SearchResult) :=
  let allResults := fold_left (search_step env query) (Repositories cfg) [] in
  Ok (sort_Slice score_greater allResults).

(* ===================================================================== *)
(** ** Rate limiter *)
(* ===================================================================== *)

Module RateLimiter.

(** How a call ends: it returns, it panics, or it blocks on the channel. *)
Inductive outcome (A : Type) :=
  | Returns (a : A)
  | Panics (reason : string)
  | Blocks.
Arguments Returns {A} a.
Arguments Panics {A} reason.
Arguments Blocks {A}.

(** A [time.Ticker]: its period in nanoseconds and whether it still
    delivers ticks. *)
Record Ticker := {
  interval : Z;
  running : bool
}.

(** The channel [requests] of capacity 1: the number of queued permits
    and whether the channel was closed. *)
Record Chan := {
  queued : nat;
  closed : bool
}.

Record t := {
  ticker : Ticker;
  requests : Chan
}.

Definition time_Second : Z := 1000000000.

Definition NewRateLimiter (requestsPerSecond : Z) : outcome t :=
  let requestsPerSecond := if requestsPerSecond <=? 0 then 10 else requestsPerSecond in
  let interval := Z.quot time_Second requestsPerSecond in
  (* time.NewTicker panics on a non-positive period *)
  if interval <=? 0 then Panics "non-positive interval for NewTicker"
  else Returns {| ticker := {| interval := interval; running := true |};
                  requests := {| queued := 1; closed := false |} |}.

(** The body of the refill goroutine at one tick: a non-blocking send. *)
Definition tick (rl : t) : outcome t :=
  if closed (requests rl) then Panics "send on closed channel"
  else if (queued (requests rl) <? 1)%nat then
    Returns {| ticker := ticker rl;
               requests := {| queued := 1; closed := false |} |}
  else Returns rl.

(** [<-rl.requests] *)
Definition Wait (rl : t) : outcome t :=
  match queued (requests rl) with
  | S n => Returns {| ticker := ticker rl;
                      requests := {| queued := n; closed := closed (requests rl) |} |}
  | O => if closed (requests rl) then Returns rl else Blocks
  end.

Definition ticker_Stop (tk : Ticker) : Ticker :=
  {| interval := interval tk; running := false |}.

(** [rl.ticker.Stop(); close(rl.requests)]: closing a closed channel
    panics. *)
Definition Close (rl : t) : outcome t :=
  let stopped := ticker_Stop (ticker rl) in
  if closed (requests rl) then Panics "close of closed channel"
  else Returns {| ticker := stopped;
                  requests := {| queued := queued (requests rl); closed := true |} |}.

(** Sequencing of two calls on the same limiter. *)
Definition and_then (o : outcome t) (f : t -> outcome t) : outcome t :=
  match o with
  | Returns rl => f rl
  | Panics reason => Panics reason
  | Blocks => Blocks
  end.

End RateLimiter.

(* ===================================================================== *)
(** ** A concrete deployment, for running the definitions *)
(* ===================================================================== *)

Module Example.

Definition join (a b : string) : string := a ++ "/" ++ b.

Definition build (osName arch : string) : RepositoryFile :=
  {| rf_OS := osName; rf_Arch := arch; rf_Format := "tar.zst";
     rf_Filename := "demo-" ++ osName ++ "-" ++ arch ++ ".tar.zst";
     rf_Size := 1024; rf_Checksum := ""; rf_URL := "" |}.

Definition release (version : string) (builds : list RepositoryFile) : RepositoryVersion :=
  {| rv_Version := version; rv_Description := ""; rv_Files := builds;
     rv_Size := 1024; rv_Checksum := "" |}.

Definition demo (versions : list RepositoryVersion) : RepositoryPackage :=
  {| rp_Name := "demo"; rp_Description := "a demo package"; rp_Author := "criage";
     rp_License := "MIT"; rp_Versions := versions |}.

Definition repository (name url : string) (priority : Z) (enabled : bool) : Repository :=
  {| repo_Name := name; repo_URL := url; repo_Priority := priority;
     repo_Enabled := enabled; repo_AuthToken := "" |}.

Definition P1 := repository "p1" "https://p1" 0 false.
Definition P2 := repository "p2" "https://p2" 1 true.
Definition P3 := repository "p3" "https://p3" 2 true.
Definition P4 := repository "p4" "https://p4" 1 true.

(** P1 and P3 serve demo 1.0.0 for linux/amd64, P2 serves it for
    windows/amd64 only, P4 serves demo 1.0.0 and 1.1.0 for linux/amd64. *)
Definition packages (req : Request) : HttpReply PackageEnvelope :=
  let found versions :=
    Reply 200 (Some {| pe_Success := true; pe_Data := Some (demo versions) |}) in
  if String.eqb (req_url req) "https://p1/api/v1/packages/demo" then
    found [release "1.0.0" [build "linux" "amd64"]]
  else if String.eqb (req_url req) "https://p2/api/v1/packages/demo" then
    found [release "1.0.0" [build "windows" "amd64"]]
  else if String.eqb (req_url req) "https://p3/api/v1/packages/demo" then
    found [release "1.0.0" [build "linux" "amd64"]]
  else if String.eqb (req_url req) "https://p4/api/v1/packages/demo" then
    found [release "1.0.0" [build "linux" "amd64"];
           release "1.1.0" [build "linux" "amd64"]]
  else Reply 404 None.

Definition hit (name : string) (score : spec_float) : SearchResult :=
  {| sr_Name := name; sr_Version := "1.0.0"; sr_Description := ""; sr_Author := "";
     sr_Downloads := 0; sr_Updated := 0; sr_Score := score |}.

(** 1.0, 2.0 and 3.0 as binary64 values. *)
Definition one : spec_float := S754_finite false 4503599627370496 (-52).
Definition two : spec_float := S754_finite false 4503599627370496 (-51).
Definition three : spec_float := S754_finite false 6755399441055744 (-51).

(** P2 answers a search with two hits, P3 is unreachable, P4 answers
    with one hit. *)
Definition searches (req : Request) : HttpReply SearchEnvelope :=
  if String.eqb (req_url req) "https://p2/api/v1/search?q=demo" then
    Reply 200 (Some {| se_Success := true;
                       se_Results := [hit "demo" one; hit "demo-cli" three] |})
  else if String.eqb (req_url req) "https://p4/api/v1/search?q=demo" then
    Reply 200 (Some {| se_Success := true; se_Results := [hit "demo-lib" two] |})
  else TransportFailure.

(** A manifest is the text [name@version]; an archive is the manifest
    text of the package it holds. *)
Definition manifest_of (data : string) : option PackageManifest :=
  match String.index 0 "@" data with
  | Some n =>
    Some {| m_Name := String.substring 0 n data;
            m_Version := String.substring (S n) (String.length data - S n) data;
            m_Description := ""; m_Author := ""; m_License := "MIT";
            m_Dependencies := ∅; m_Files := ["criage.yaml"]; m_Scripts := ∅ |}
  | None => None
  end.

Definition unpack (archive : string) : option (gmap string string) :=
  Some {[ "criage.yaml" := archive ]}.

(** The environment: [codec] is the archive codec, [artifact] the bytes
    every download yields. *)
Definition env (codec : string -> option (gmap string string)) (artifact : string) : Env :=
  {| GOARCH := "amd64"; GOOS := "linux"; now := 1700000000;
     filepath_Join := join;
     http_package := packages;
     http_search := searches;
     http_download := fun _ _ _ => Some artifact;
     archive_codec := codec;
     json_manifest := manifest_of;
     json_marshal_ok := fun _ => true;
     os_RemoveAll_ok := fun _ => true;
     os_MkdirAll_ok := fun _ => true;
     os_copy := fun _ => CopyOk;
     os_WriteFile := fun _ => WriteOk |}.

Definition cfg (repos : list Repository) : Config :=
  {| Repositories := repos; GlobalPath := "/home/u/.criage/packages";
     LocalPath := "./criage_modules"; CachePath := "/home/u/.criage/cache";
     TempPath := "/home/u/.criage/temp" |}.

Definition installed (version : string) (global : bool) : PackageInfo :=
  {| Name := "demo"; Version := version; Description := ""; Author := "";
     License := "MIT"; InstallDate := 1600000000;
     InstallPath := getInstallPath (env unpack "") (cfg []) "demo" global;
     Global := global; Dependencies := ∅; Size := 10;
     Files := ["criage.yaml"]; Scripts := ∅ |}.

Definition world (repos : list Repository) (memory : gmap string PackageInfo)
    (fs : gmap string file) (ds : gmap string (gmap string string)) : World :=
  {| manager := {| config := cfg repos; installedPackages := memory |};
     disk := {| files := fs; dirs := ds |} |}.

Definition global_json : string := "/home/u/.criage/packages/packages.json".
Definition local_json : string := "./criage_modules/packages.json".

End Example.

(* ===================================================================== *)
(** ** Auxiliary notions used in the statements *)
(* ===================================================================== *)

(** [repo] is enabled and resolves the request on its own. *)
Definition satisfies (env : Env) (packageName version arch osName : string)
    (repo : Repository) : bool :=
  repo_Enabled repo && is_Ok (findInRepository env repo packageName version arch osName).

(** Replacing the priorities of the configured repositories. *)
Definition with_priority (priority : Repository -> Z) (repo : Repository) : Repository :=
  {| repo_Name := repo_Name repo; repo_URL := repo_URL repo;
     repo_Priority := priority repo; repo_Enabled := repo_Enabled repo;
     repo_AuthToken := repo_AuthToken repo |}.

Definition with_repositories (repos : list Repository) (cfg : Config) : Config :=
  {| Repositories := repos; GlobalPath := GlobalPath cfg; LocalPath := LocalPath cfg;
     CachePath := CachePath cfg; TempPath := TempPath cfg |}.

(** The order the specification describes: ascending [Priority]. *)
Definition spec_priority_order (repos : list Repository) : list Repository :=
  sort_Slice (fun a b => repo_Priority a <? repo_Priority b) repos.

(** The record [InstallPackage] builds from the manifest. *)
Definition record_of (env : Env) (manifest : PackageManifest) (installPath : string)
    (global : bool) (size : Z) : PackageInfo :=
  {| Name := m_Name manifest;
     Version := m_Version manifest;
     Description := m_Description manifest;
     Author := m_Author manifest;
     License := m_License manifest;
     InstallDate := now env;
     InstallPath := installPath;
     Global := global;
     Dependencies := m_Dependencies manifest;
     Size := size;
     Files := m_Files manifest;
     Scripts := m_Scripts manifest |}.

(** No record decodes from the files of [d'] that did not decode from the
    files of [d]. *)
Definition no_new_record (d d' : Disk) : Prop :=
  forall path name record,
    read_packages d' path ≫= (fun packages => packages !! name) = Some record ->
    read_packages d path ≫= (fun packages => packages !! name) = Some record.


(** The errors [InstallPackage] returns. *)
Definition install_error (e : error) : bool :=
  match e with
  | ErrAlreadyInstalled _ _ | ErrResolve _ | ErrDownload | ErrExtract | ErrManifest
  | ErrRemoveOld | ErrMkdir | ErrCopy | ErrSave _ => true
  | _ => false
  end.

(** What one configured repository adds to a search: nothing when it is
    disabled or when its request fails. *)
Definition contribution (env : Env) (query : string) (repo : Repository)
  : list SearchResult :=
  if repo_Enabled repo then
    match searchInRepository env repo query with
    | Ok results => results
    | Err _ => []
    end
  else [].

(** Descending relevance: [a] may stand before [b]. *)
Definition score_ge (a b : SearchResult) : Prop :=
  SFleb (sr_Score b) (sr_Score a) = true.

(** The platform default for an unspecified architecture or OS. *)
Definition or_default (value default : string) : string :=
  if bool_decide (value = "") then default else value.

(* ===================================================================== *)
(** ** Listing and inspecting installed packages *)
(* ===================================================================== *)





(** The package manager as [NewPackageManager] builds it before loading:
    the same configuration, an empty map. *)
Definition restarted (w : World) : World :=
  {| manager := {| config := config (manager w); installedPackages := ∅ |};
     disk := disk w |}.

(** The lookup of a name in the document decoded from a file. *)
Definition recorded (d : Disk) (path name : string) : option PackageInfo :=
  read_packages d path ≫= (fun packages => packages !! name).

(** The number of bytes in the files of a tree, as a mathematical sum. *)
Definition total_bytes (tree : gmap string string) : Z :=
  map_fold (fun _ data total => total + Z.of_nat (String.length data)) 0 tree.

(* ===================================================================== *)
(** ** Runs of the rate limiter *)
(* ===================================================================== *)

(** What can happen to a limiter: the refill goroutine receives a tick,
    a caller waits, a caller closes. *)
Inductive limiter_op :=
  | OpTick
  | OpWait
  | OpClose.

Definition limiter_step (rl : RateLimiter.t) (op : limiter_op)
  : RateLimiter.outcome RateLimiter.t :=
  match op with
  | OpTick => RateLimiter.tick rl
  | OpWait => RateLimiter.Wait rl
  | OpClose => RateLimiter.Close rl
  end.

Fixpoint limiter_run (rl : RateLimiter.t) (ops : list limiter_op)
  : RateLimiter.outcome RateLimiter.t :=
  match ops with
  | [] => RateLimiter.Returns rl
  | op :: rest =>
    RateLimiter.and_then (limiter_step rl op) (fun rl' => limiter_run rl' rest)
  end.

(* ===================================================================== *)
(** ** formatSize: the choice of the unit *)
(* ===================================================================== *)

(** What [formatSize] prints with: the plain byte count, or the count
    divided by [div] with the letter at index [exp] of "KMGTPE". *)
Inductive size_unit :=
  | PlainBytes
  | Scaled (div : Z) (exp : nat)
  | OutOfFuel.

(** [for n := bytes / unit; n >= unit; n /= unit { div *= unit; exp++ }] *)
Fixpoint formatSize_loop (fuel : nat) (n div : Z) (exp : nat) : size_unit :=
  match fuel with
  | O => OutOfFuel
  | S fuel' =>
    if n >=? 1024 then formatSize_loop fuel' (Z.quot n 1024) (int64 (div * 1024)) (S exp)
    else Scaled div exp
  end.

Definition formatSize_unit (bytes : Z) : size_unit :=
  if bytes <? 1024 then PlainBytes
  else formatSize_loop 64 (Z.quot bytes 1024) 1024 0.

(* ===================================================================== *)
(** ** Repository client: the paginated package list *)
(* ===================================================================== *)

Record PackageListResponse := {
  plr_Packages : list RepositoryPackage;
  plr_Total : Z;
  plr_Page : Z;
  plr_Limit : Z;
  plr_TotalPages : Z
}.

(** [{success, data, error, message}] of GET /api/v1/packages. *)
Record ListEnvelope := {
  le_Success : bool;
  le_Data : option PackageListResponse;
  le_Error : string;
  le_Message : string
}.

Inductive client_error :=
  | ClientTransport
  | ClientServer (status : Z)
  | ClientDecode
  | ClientFailed (message : string)
  | ClientEmpty.

(** [ListRepositoryPackages]; [http_list] is the endpoint behind
    [httpClient.Do]. The page and the limit are printed in decimal into the
    query string; no Authorization header is set. *)
Definition ListRepositoryPackages (http_list : Request -> HttpReply ListEnvelope)
    (repositoryURL : string) (page limit : Z) : client_error + PackageListResponse :=
  let page := if page <? 1 then 1 else page in
  let limit := if (limit <? 1) || (100 <? limit) then 20 else limit in
  let listURL := repositoryURL ++ "/api/v1/packages?page=" ++ pretty page
                   ++ "&limit=" ++ pretty limit in
  match http_list {| req_url := listURL; req_authorization := None |} with
  | TransportFailure => inl ClientTransport
  | Reply status body =>
    if negb (status =? 200) then inl (ClientServer status) else
    match body with
    | None => inl ClientDecode
    | Some apiResp =>
      if negb (le_Success apiResp) then
        if negb (String.eqb (le_Error apiResp) "")
        then inl (ClientFailed (le_Error apiResp))
        else inl (ClientFailed (le_Message apiResp))
      else
        match le_Data apiResp with
        | None => inl ClientEmpty
        | Some data => inr data
        end
    end
  end.

(* ===================================================================== *)
(** ** Building and publishing *)
(* ===================================================================== *)

Inductive publish_error :=
  | PubManifest (cause : error)
  | PubArchive
  | PubCreateArchive (cause : publish_error)
  | PubBuild (cause : publish_error)
  | PubOpen
  | PubTransport
  | PubUnauthorized
  | PubServer (status : Z)
  | PubDecode
  | PubFailed (message : string).

Inductive publish_outcome :=
  | Published
  | PublishFails (e : publish_error)
  | PublishPanics (reason : string).

(** [createArchive] as package_manager.go has it: archives cannot be
    created yet, every call reports an error. *)
Definition createArchive (srcDir outputPath format : string) (compressionLevel : Z)
  : option publish_error :=
  Some PubArchive.

(** [loadManifestFromDir] on a directory of the disk. *)
Definition manifest_in (env : Env) (w : World) (dir : string) : result PackageManifest :=
  match dirs (disk w) !! dir with
  | None => Err ErrNotExist
  | Some tree => fst (loadManifestFromDir env tree w)
  end.

Definition BuildPackage (env : Env) (outputPath format : string) (compressionLevel : Z)
    (w : World) : option publish_error :=
  match manifest_in env w "." with
  | Err e => Some (PubManifest e)
  | Ok manifest =>
    let outputPath :=
      if bool_decide (outputPath = "")
      then m_Name manifest ++ "-" ++ m_Version manifest ++ "." ++ format
      else outputPath in
    match createArchive "." outputPath format compressionLevel with
    | Some e => Some (PubCreateArchive e)
    | None => None
    end
  end.

(** [{success, message}] of POST /api/v1/upload. *)
Record UploadEnvelope := {
  ue_Success : bool;
  ue_Message : string
}.

(** The outside of [uploadPackage]: whether the archive opens, and the
    upload endpoint. The multipart body is not represented, and filling it
    from the opened archive is taken to succeed. *)
Record Uploader := {
  os_Open_ok : string -> bool;
  http_upload : Request -> HttpReply UploadEnvelope
}.

Definition uploadPackage (up : Uploader) (registryURL archivePath token : string)
  : option publish_error :=
  if negb (os_Open_ok up archivePath) then Some PubOpen else
  match http_upload up
          {| req_url := registryURL ++ "/api/v1/upload";
             req_authorization :=
               if bool_decide (token = "") then None else Some ("Bearer " ++ token) |} with
  | TransportFailure => Some PubTransport
  | Reply status body =>
    if status =? 401 then Some PubUnauthorized
    else if negb (status =? 201) then Some (PubServer status)
    else match body with
         | None => Some PubDecode
         | Some reply =>
           if negb (ue_Success reply) then Some (PubFailed (ue_Message reply)) else None
         end
  end.

(** [PublishPackage]; [compressionLevel] is [pm.config.CompressionLevel].
    Indexing [pm.config.Repositories[0]] panics on an empty list. *)
Definition PublishPackage (env : Env) (up : Uploader) (compressionLevel : Z)
    (registryURL token : string) (w : World) : publish_outcome :=
  match manifest_in env w "." with
  | Err e => PublishFails (PubManifest e)
  | Ok manifest =>
    let archivePath := m_Name manifest ++ "-" ++ m_Version manifest ++ ".criage" in
    match BuildPackage env archivePath "criage" compressionLevel w with
    | Some e => PublishFails (PubBuild e)
    | None =>
      if bool_decide (registryURL = "") then
        match Repositories (config (manager w)) with
        | [] => PublishPanics "index out of range [0] with length 0"
        | first :: _ =>
          match uploadPackage up (repo_URL first) archivePath token with
          | Some e => PublishFails e
          | None => Published
          end
        end
      else
        match uploadPackage up registryURL archivePath token with
        | Some e => PublishFails e
        | None => Published
        end
    end
  end.

(* ===================================================================== *)
(** ** The MCP tools over the life cycle (main.go) *)
(* ===================================================================== *)

(** A decoded JSON value of [map[string]interface{}]; the content of
    arrays and objects is not needed. *)
Inductive json_value :=
  | JNull
  | JBool (b : bool)
  | JNumber (f : spec_float)
  | JString (s : string)
  | JArray
  | JObject.

Definition getString (args : gmap string json_value) (key defaultValue : string) : string :=
  match args !! key with
  | Some (JString str) => str
  | _ => defaultValue
  end.

Definition getBool (args : gmap string json_value) (key : string) (defaultValue : bool) : bool :=
  match args !! key with
  | Some (JBool b) => b
  | _ => defaultValue
  end.

Inductive tool_error :=
  | ToolNameRequired
  | ToolManager (e : error).

(** A tool handler returns the text of its result, or an error. *)
Definition tool (A : Type) : Type := World -> (tool_error + A) * World.

Definition report (text : string) (run : M unit) : tool string :=
  fun w => match run w with
           | (Ok _, w') => (inr text, w')
           | (Err e, w') => (inl (ToolManager e), w')
           end.

Definition installPackage (env : Env) (args : gmap string json_value) : tool string :=
  let name := getString args "name" "" in
  if bool_decide (name = "") then fun w => (inl ToolNameRequired, w) else
  let version := getString args "version" "" in
  let global := getBool args "global" false in
  let force := getBool args "force" false in
  let arch := getString args "arch" "" in
  let osName := getString args "os" "" in
  report ("Пакет " ++ name ++ " успешно установлен")
         (InstallPackage env name version global force false arch osName).

Definition uninstallPackage (env : Env) (args : gmap string json_value) : tool string :=
  let name := getString args "name" "" in
  if bool_decide (name = "") then fun w => (inl ToolNameRequired, w) else
  let global := getBool args "global" false in
  let purge := getBool args "purge" false in
  report ("Пакет " ++ name ++ " успешно удален")
         (UninstallPackage env name global purge).

Definition updatePackage (env : Env) (args : gmap string json_value) : tool string :=
  let name := getString args "name" "" in
  if bool_decide (name = "") then fun w => (inl ToolNameRequired, w) else
  report ("Пакет " ++ name ++ " успешно обновлен") (UpdatePackage env name).
(* ===================================================================== *)
(** ** Resolver properties *)
(* ===================================================================== *)

Section Resolver.

Context (env : Env) (packageName version arch osName : string).

Let ok := satisfies env packageName version arch osName.

(** The loop returns the answer of the first repository, in list order,
    that is enabled and resolves the request. *)
Lemma findPackage_loop_find (repos : list Repository) :
  findPackage_loop env repos packageName version arch osName =
  match List.find (satisfies env packageName version arch osName) repos with
  | Some repo => findInRepository env repo packageName version arch osName
  | None => Err (ErrPackageNotFound packageName)
  end.
Proof.
  induction repos as [|repo rest IH]; simpl; [reflexivity|].
  unfold satisfies at 1.
  destruct (repo_Enabled repo); simpl; [|exact IH].
  destruct (findInRepository env repo packageName version arch osName) eqn:Hfound;
    simpl; [now rewrite Hfound | exact IH].
Qed.

Lemma find_skips_prefix (pre post : list Repository) (repo : Repository) :
  Forall (fun p => ok p = false) pre ->
  ok repo = true ->
  List.find ok (pre ++ repo :: post) = Some repo.
Proof.
  intros Hpre Hrepo. induction Hpre as [|p pre Hp _ IH]; simpl.
  - now rewrite Hrepo.
  - now rewrite Hp.
Qed.

Lemma find_none_all (repos : list Repository) :
  Forall (fun p => ok p = false) repos ->
  List.find ok repos = None.
Proof.
  induction 1 as [|p rest Hp _ IH]; simpl; [reflexivity|]. now rewrite Hp.
Qed.

End Resolver.

Lemma find_with_priority env priority n v a o (repos : list Repository) :
  findPackage_loop env (map (with_priority priority) repos) n v a o =
  findPackage_loop env repos n v a o.
Proof.
  induction repos as [|repo rest IH]; simpl; [reflexivity|].
  rewrite IH. reflexivity.
Qed.

(** C2, as amended. Resolution falls through: when every enabled
    repository listed before [repo] fails to resolve the request (for
    instance because it holds the package without a file for the platform),
    and [repo] is enabled and resolves it, [findPackage] returns the answer
    of [repo]; it fails, with package-not-found, when no enabled repository
    resolves the request on its own. *)
Theorem findPackage_falls_through :
  forall env cfg packageName version arch osName,
    (forall (pre : list Repository) repo post found,
        Repositories cfg = (pre ++ repo :: post)%list ->
        Forall (fun p => satisfies env packageName version arch osName p = false) pre ->
        repo_Enabled repo = true ->
        findInRepository env repo packageName version arch osName = Ok found ->
        findPackage env cfg packageName version arch osName = Ok found) /\
    (Forall (fun p => satisfies env packageName version arch osName p = false)
            (Repositories cfg) ->
     findPackage env cfg packageName version arch osName
       = Err (ErrPackageNotFound packageName)).
Proof.
  intros env cfg n v a o. unfold findPackage. split.
  - intros pre repo post found Hcfg Hpre Hen Hfound.
    rewrite findPackage_loop_find, Hcfg.
    rewrite (find_skips_prefix env n v a o pre post repo Hpre); [exact Hfound|].
    unfold satisfies. now rewrite Hen, Hfound.
  - intros Hall. rewrite findPackage_loop_find.
    now rewrite (find_none_all env n v a o _ Hall).
Qed.

(** Witness for C2: with [P1] disabled and [P2] holding demo for
    windows only, the request for linux/amd64 is answered by [P3]; without
    [P3] it fails with package-not-found. *)
Lemma findPackage_falls_through_witness :
  let env := Example.env Example.unpack "" in
  findPackage env (Example.cfg [Example.P1; Example.P2; Example.P3])
              "demo" "" "amd64" "linux"
  = findInRepository env Example.P3 "demo" "" "amd64" "linux" /\
  findPackage env (Example.cfg [Example.P1; Example.P2]) "demo" "" "amd64" "linux"
  = Err (ErrPackageNotFound "demo").
Proof.
  intros env. split.
  - pose proof (findPackage_falls_through env
                  (Example.cfg [Example.P1; Example.P2; Example.P3])
                  "demo" "" "amd64" "linux") as [Hthrough _].
    destruct (findInRepository env Example.P3 "demo" "" "amd64" "linux")
      as [found|e] eqn:Hfound.
    + apply (Hthrough [Example.P1; Example.P2] Example.P3 [] found).
      * reflexivity.
      * repeat constructor.
      * reflexivity.
      * exact Hfound.
    + vm_compute in Hfound. discriminate Hfound.
  - apply (findPackage_falls_through env (Example.cfg [Example.P1; Example.P2])
             "demo" "" "amd64" "linux").
    repeat constructor.
Defined.

(** C2, the claim as stated fails: the first enabled repository holding
    demo ([P2]) has no linux/amd64 file, yet resolution succeeds, with the
    file of the later repository [P3]. *)
Lemma findPackage_no_fallback_counterexample :
  let env := Example.env Example.unpack "" in
  is_Ok (findInRepository env Example.P2 "demo" "" "amd64" "linux") = false /\
  findInRepository env Example.P2 "demo" "" "amd64" "linux"
    = Err (ErrFileNotFound "linux" "amd64") /\
  exists info,
    findPackage env (Example.cfg [Example.P1; Example.P2; Example.P3])
                "demo" "" "amd64" "linux"
    = Ok (info, "https://p3/api/v1/download/demo/1.0.0/demo-linux-amd64.tar.zst").
Proof.
  repeat split; try reflexivity. eexists. vm_compute. reflexivity.
Qed.

(** C3, as amended. [findPackage] consults the repositories in the order
    the configuration lists them, skipping disabled ones: its answer is
    that of the first listed repository that is enabled and resolves the
    request, and it does not depend on the [Priority] fields. *)
Theorem findPackage_list_order :
  forall env cfg packageName version arch osName,
    findPackage env cfg packageName version arch osName =
      match List.find (satisfies env packageName version arch osName) (Repositories cfg) with
      | Some repo => findInRepository env repo packageName version arch osName
      | None => Err (ErrPackageNotFound packageName)
      end /\
    forall priority,
      findPackage env (with_repositories (map (with_priority priority) (Repositories cfg)) cfg)
                  packageName version arch osName
      = findPackage env cfg packageName version arch osName.
Proof.
  intros env cfg n v a o. split.
  - apply findPackage_loop_find.
  - intros priority. unfold findPackage. simpl. apply find_with_priority.
Qed.

(** C3, the claim as stated fails: [P3] (priority 2) is listed before [P4]
    (priority 1); the latest demo is resolved from [P3], while consulting
    in ascending priority would resolve it from [P4]. *)
Lemma findPackage_priority_counterexample :
  let env := Example.env Example.unpack "" in
  let cfg := Example.cfg [Example.P3; Example.P4] in
  spec_priority_order (Repositories cfg) = [Example.P4; Example.P3] /\
  findPackage env cfg "demo" "" "amd64" "linux"
    = findInRepository env Example.P3 "demo" "" "amd64" "linux" /\
  findPackage env cfg "demo" "" "amd64" "linux"
    <> findPackage env (with_repositories (spec_priority_order (Repositories cfg)) cfg)
                   "demo" "" "amd64" "linux".
Proof.
  repeat split; try reflexivity. vm_compute. discriminate.
Qed.

(* ===================================================================== *)
(** ** Registry store properties *)
(* ===================================================================== *)

(** Unfolds the plumbing of [M]. *)
Ltac run :=
  unfold bind, ret, fail, gets, modify, wrap, lift in *; simpl in *.

Lemma loadPackagesFromFile_doc path w packages :
  files (disk w) !! path = Some (Bytes false (Some packages)) ->
  load_partition path w = (Ok tt, set_installed (fun installed => packages ∪ installed) w).
Proof.
  intros Hfile. unfold load_partition, loadPackagesFromFile. now rewrite Hfile.
Qed.

Lemma loadInstalledPackages_docs env w g l :
  files (disk w) !! packagesPath env (config (manager w)) true
    = Some (Bytes false (Some g)) ->
  files (disk w) !! packagesPath env (config (manager w)) false
    = Some (Bytes false (Some l)) ->
  loadInstalledPackages env w
    = (Ok tt, set_installed (fun installed => l ∪ (g ∪ installed)) w).
Proof.
  intros Hg Hl. unfold loadInstalledPackages. run.
  rewrite (loadPackagesFromFile_doc _ w g Hg).
  rewrite (loadPackagesFromFile_doc _ _ l); [reflexivity | exact Hl].
Qed.

(** C1, as amended. The in-memory registry is keyed by name alone. Loading
    at start-up, into the empty registry, a global document [g] and a local
    document [l] gives the single map [l ∪ g], in which an entry of [l]
    replaces the entry of [g] under the same name: a name present in both
    partitions yields one in-memory record, the local one, and a lookup by
    that name (which takes no scope) returns it. The disk is not changed. *)
Theorem loadInstalledPackages_keyed_by_name :
  forall env w (g l : gmap string PackageInfo),
    installedPackages (manager w) = ∅ ->
    files (disk w) !! packagesPath env (config (manager w)) true
      = Some (Bytes false (Some g)) ->
    files (disk w) !! packagesPath env (config (manager w)) false
      = Some (Bytes false (Some l)) ->
    exists w',
      loadInstalledPackages env w = (Ok tt, w') /\
      installedPackages (manager w') = l ∪ g /\
      disk w' = disk w /\
      forall name pg pl,
        g !! name = Some pg -> l !! name = Some pl ->
        getInstalledPackage (manager w') name = Some pl.
Proof.
  intros env w g l Hempty Hg Hl.
  eexists. split; [apply (loadInstalledPackages_docs env w g l Hg Hl)|].
  simpl. rewrite Hempty, (right_id_L ∅ (∪) g).
  repeat split.
  intros name pg pl _ Hpl. unfold getInstalledPackage. simpl.
  now apply lookup_union_Some_l.
Qed.

(** Witness for C1: demo 1.0.0 in the global partition and demo 2.0.0 in
    the local one; after loading, the name demo gives the local record. *)
Lemma loadInstalledPackages_keyed_by_name_witness :
  exists w',
    loadInstalledPackages (Example.env Example.unpack "")
      (Example.world [] ∅
         {[ Example.global_json := Bytes false (Some {[ "demo" := Example.installed "1.0.0" true ]});
            Example.local_json := Bytes false (Some {[ "demo" := Example.installed "2.0.0" false ]}) ]}
         ∅)
    = (Ok tt, w') /\
    getInstalledPackage (manager w') "demo" = Some (Example.installed "2.0.0" false).
Proof.
  destruct (loadInstalledPackages_keyed_by_name (Example.env Example.unpack "")
              (Example.world [] ∅
                 {[ Example.global_json := Bytes false (Some {[ "demo" := Example.installed "1.0.0" true ]});
                    Example.local_json := Bytes false (Some {[ "demo" := Example.installed "2.0.0" false ]}) ]}
                 ∅)
              {[ "demo" := Example.installed "1.0.0" true ]}
              {[ "demo" := Example.installed "2.0.0" false ]})
    as (w' & Hload & _ & _ & Hget).
  - reflexivity.
  - vm_compute. reflexivity.
  - vm_compute. reflexivity.
  - exists w'. split; [exact Hload|].
    apply (Hget "demo" (Example.installed "1.0.0" true)); vm_compute; reflexivity.
Defined.

(** C1, the claim as stated fails: with demo recorded in both partition
    files, loading leaves exactly one in-memory record, the local one; the
    global record is held under no key. *)
Lemma loadInstalledPackages_two_scopes_counterexample :
  let global_demo := Example.installed "1.0.0" true in
  let local_demo := Example.installed "2.0.0" false in
  let w := Example.world [] ∅
             {[ Example.global_json := Bytes false (Some {[ "demo" := global_demo ]});
                Example.local_json := Bytes false (Some {[ "demo" := local_demo ]}) ]} ∅ in
  let loaded := loadInstalledPackages (Example.env Example.unpack "") w in
  fst loaded = Ok tt /\
  installedPackages (manager (snd loaded)) = {[ "demo" := local_demo ]} /\
  ~ (exists k1 k2, k1 <> k2 /\
       installedPackages (manager (snd loaded)) !! k1 = Some global_demo /\
       installedPackages (manager (snd loaded)) !! k2 = Some local_demo).
Proof.
  intros global_demo local_demo w loaded.
  assert (Hmem : installedPackages (manager (snd loaded)) = {[ "demo" := local_demo ]}).
  { subst loaded.
    rewrite (loadInstalledPackages_docs _ w {[ "demo" := global_demo ]}
               {[ "demo" := local_demo ]}) by (vm_compute; reflexivity).
    simpl. apply map_eq. intros k.
    destruct (decide (k = "demo")) as [->|Hk].
    - rewrite lookup_singleton_eq. apply lookup_union_Some_l, lookup_singleton_eq.
    - rewrite lookup_singleton_ne by congruence.
      rewrite !lookup_union_None. rewrite !lookup_singleton_ne by congruence.
      rewrite lookup_empty. auto. }
  split; [|split].
  - subst loaded.
    now rewrite (loadInstalledPackages_docs _ w {[ "demo" := global_demo ]}
                   {[ "demo" := local_demo ]}) by (vm_compute; reflexivity).
  - exact Hmem.
  - intros (k1 & k2 & _ & H1 & _). rewrite Hmem in H1.
    apply lookup_singleton_Some in H1 as [_ H1]. discriminate H1.
Qed.

(** *** Writing a partition document *)

Lemma write_packages_manager env path packages w :
  manager (snd (write_packages env path packages w)) = manager w /\
  dirs (disk (snd (write_packages env path packages w))) = dirs (disk w).
Proof.
  unfold write_packages. destruct (json_marshal_ok env packages); simpl; [|now run].
  destruct (os_WriteFile env path); now run.
Qed.

Lemma write_packages_other env path packages w other :
  other <> path ->
  files (disk (snd (write_packages env path packages w))) !! other
    = files (disk w) !! other.
Proof.
  intros Hne. unfold write_packages.
  destruct (json_marshal_ok env packages); simpl; [|now run].
  destruct (os_WriteFile env path); run; try reflexivity;
    now rewrite lookup_insert_ne by congruence.
Qed.

Lemma write_packages_Ok env path packages w w' :
  write_packages env path packages w = (Ok tt, w') ->
  w' = set_files (fun fs => <[path := Bytes false (Some packages)]> fs) w.
Proof.
  unfold write_packages. destruct (json_marshal_ok env packages); simpl; [|now run].
  destruct (os_WriteFile env path); run; congruence.
Qed.

(** A failed write leaves the file as it was, or truncated to something
    that decodes to no document. *)
Lemma write_packages_Err env path packages w e w' :
  write_packages env path packages w = (Err e, w') ->
  w' = w \/ w' = set_files (fun fs => <[path := Bytes true None]> fs) w.
Proof.
  unfold write_packages. destruct (json_marshal_ok env packages); simpl.
  - destruct (os_WriteFile env path); run; intros [= <- <-]; auto.
  - run. intros [= <- <-]. auto.
Qed.

Lemma read_packages_set_dirs f w path :
  read_packages (disk (set_dirs f w)) path = read_packages (disk w) path.
Proof. reflexivity. Qed.

(** *** removePackageInfo *)

Lemma removePackageInfo_frame env packageName global w :
  let out := removePackageInfo env packageName global w in
  manager (snd out) = manager w /\
  dirs (disk (snd out)) = dirs (disk w) /\
  forall other, other <> packagesPath env (config (manager w)) global ->
    files (disk (snd out)) !! other = files (disk w) !! other.
Proof.
  unfold removePackageInfo. run.
  destruct (read_packages (disk w) _) as [packages|]; simpl.
  - pose proof (write_packages_manager env
                  (packagesPath env (config (manager w)) global)
                  (delete packageName packages) w) as [Hm Hd].
    repeat split; auto.
    intros other Hne. now apply write_packages_other.
  - repeat split; auto.
Qed.


(* ===================================================================== *)
(** ** UninstallPackage *)
(* ===================================================================== *)


(** The three ways [UninstallPackage] ends on an installed package. *)
Lemma UninstallPackage_present env packageName global purge w info :
  getInstalledPackage (manager w) packageName = Some info ->
  let removed := set_dirs (fun ds => delete (InstallPath info) ds) w in
  let out := UninstallPackage env packageName global purge w in
  (os_RemoveAll_ok env (InstallPath info) = false /\ out = (Err ErrRemoveFiles, w)) \/
  (os_RemoveAll_ok env (InstallPath info) = true /\
   exists e w1, removePackageInfo env packageName global removed = (Err e, w1) /\
                out = (Err (ErrRemoveInfo e), w1)) \/
  (os_RemoveAll_ok env (InstallPath info) = true /\
   exists w1, removePackageInfo env packageName global removed = (Ok tt, w1) /\
              out = (Ok tt, set_installed (fun installed => delete packageName installed) w1)).
Proof.
  intros Hsome removed out. subst out. unfold UninstallPackage, os_RemoveAll. run.
  rewrite Hsome. simpl.
  destruct (os_RemoveAll_ok env (InstallPath info)); simpl; [|now left].
  right. fold removed.
  destruct (removePackageInfo env packageName global removed) as [[[]|e] w1] eqn:Hrm.
  - right. split; [reflexivity|]. now exists w1.
  - left. split; [reflexivity|]. now exists e, w1.
Qed.



(* ===================================================================== *)
(** ** InstallPackage *)
(* ===================================================================== *)

Lemma no_new_record_same d d' : files d' = files d -> no_new_record d d'.
Proof. intros Hf path name record. unfold read_packages. now rewrite Hf. Qed.

Lemma no_new_record_truncated d d' path :
  files d' = <[path := Bytes true None]> (files d) -> no_new_record d d'.
Proof.
  intros Hf other name record. unfold read_packages. rewrite Hf.
  destruct (decide (path = other)) as [->|Hne].
  - rewrite lookup_insert_eq. discriminate.
  - now rewrite lookup_insert_ne.
Qed.

(** Case analysis of a run of [InstallPackage], one outside answer at a
    time, in the order the function asks for them. *)
Ltac install_step :=
  match goal with
  | |- context [getInstalledPackage ?m ?n] =>
      destruct (getInstalledPackage m n) eqn:?
  | |- context [bool_decide (?v = "") || bool_decide (Version ?i = ?v)] =>
      destruct (bool_decide (v = "") || bool_decide (Version i = v)) eqn:?
  | |- context [findPackage ?e ?c ?n ?v ?a ?o] =>
      destruct (findPackage e c n v a o) eqn:?
  | |- context [http_download ?e ?u ?n ?v] =>
      destruct (http_download e u n v) eqn:?
  | |- context [archive_codec ?e ?a] => destruct (archive_codec e a) eqn:?
  | |- context [@lookup string string (gmap string string) _ "criage.yaml" ?t] =>
      destruct (@lookup string string (gmap string string) _ "criage.yaml" t) eqn:?
  | |- context [json_manifest ?e ?d] => destruct (json_manifest e d) eqn:?
  | |- context [os_RemoveAll_ok ?e ?p] => destruct (os_RemoveAll_ok e p) eqn:?
  | |- context [os_MkdirAll_ok ?e ?p] => destruct (os_MkdirAll_ok e p) eqn:?
  | |- context [os_copy ?e ?p] => destruct (os_copy e p) eqn:?
  | |- context [json_marshal_ok ?e ?p] => destruct (json_marshal_ok e p) eqn:?
  | |- context [os_WriteFile ?e ?p] => destruct (os_WriteFile e p) eqn:?
  end; run.

Ltac install_cases :=
  unfold InstallPackage, check_not_installed, downloadPackage, extractArchive,
    loadManifestFromDir, os_RemoveAll, os_MkdirAll, copyFiles, savePackageInfo,
    write_packages;
  run; repeat install_step.

Lemma InstallPackage_Err_registry env packageName version global force dev arch osName w e w' :
  InstallPackage env packageName version global force dev arch osName w = (Err e, w') ->
  manager w' = manager w /\
  (files (disk w') = files (disk w) \/
   (exists cause, e = ErrSave cause) /\
   exists path, files (disk w') = <[path := Bytes true None]> (files (disk w))).
Proof.
  destruct force; install_cases; try discriminate; intros [= <- <-]; simpl;
    (split; [reflexivity|]);
    first [ left; reflexivity
          | right; split; eexists; reflexivity ].
Qed.

Lemma InstallPackage_Err_kind env packageName version global force dev arch osName w e w' :
  InstallPackage env packageName version global force dev arch osName w = (Err e, w') ->
  install_error e = true.
Proof.
  destruct force; install_cases; try discriminate; intros [= <- <-]; reflexivity.
Qed.

(** With the codec the repository ships, no install completes. *)
Lemma InstallPackage_unimplemented env packageName version global force dev arch osName w :
  archive_codec env = unimplemented_codec ->
  fst (InstallPackage env packageName version global force dev arch osName w) <> Ok tt.
Proof.
  intros Hcodec.
  destruct force; install_cases; simpl; try discriminate;
    match goal with H : archive_codec env _ = Some _ |- _ =>
      rewrite Hcodec in H; discriminate H end.
Qed.

(** C5. When [InstallPackage] fails, at whatever step, the in-memory map
    is as before, and no record decodes from any partition file that did
    not decode from it before; unless the failure is the one of
    persisting the record, the files are untouched. *)
Theorem InstallPackage_failure_registers_nothing :
  forall env packageName version global force dev arch osName w e w',
    InstallPackage env packageName version global force dev arch osName w = (Err e, w') ->
    installedPackages (manager w') = installedPackages (manager w) /\
    no_new_record (disk w) (disk w') /\
    ((forall cause, e <> ErrSave cause) -> files (disk w') = files (disk w)).
Proof.
  intros env packageName version global force dev arch osName w e w' Hrun.
  destruct (InstallPackage_Err_registry _ _ _ _ _ _ _ _ _ _ _ Hrun)
    as [Hm [Hsame | [[cause ->] [path Htrunc]]]].
  - rewrite Hm. split; [reflexivity|]. split; [now apply no_new_record_same | auto].
  - rewrite Hm. split; [reflexivity|].
    split; [now apply (no_new_record_truncated _ _ path)|].
    intros Hne. now destruct (Hne cause).
Qed.

(** Witness for C5: the shipped codec fails at the extraction step; the
    registry stays empty and the global partition file keeps its record. *)
Lemma InstallPackage_failure_registers_nothing_witness :
  let env := Example.env unimplemented_codec "demo@1.0.0" in
  let kept := Example.installed "0.9.0" true in
  let w := Example.world [Example.P3] ∅
             {[ Example.global_json := Bytes false (Some {[ "other" := kept ]}) ]} ∅ in
  let out := InstallPackage env "demo" "" true false false "" "" w in
  fst out = Err ErrExtract /\
  installedPackages (manager (snd out)) = ∅ /\
  files (disk (snd out)) = files (disk w).
Proof.
  intros env kept w out.
  assert (Hrun : out = (Err ErrExtract, snd out)) by (vm_compute; reflexivity).
  destruct (InstallPackage_failure_registers_nothing env "demo" "" true false false "" ""
              w ErrExtract (snd out) Hrun) as (Hmem & _ & Hfiles).
  split; [now rewrite Hrun|]. split; [exact Hmem|].
  apply Hfiles. intros cause. discriminate.
Defined.

(** C4, as amended. With [force] false and a record held under the name,
    [InstallPackage] fails with already-installed, leaving the world as it
    was, when no version is requested or the requested version is the
    installed one; when a version is requested that differs from the
    installed one the check lets the request through: it never fails with
    already-installed. *)
Theorem InstallPackage_unforced_existing :
  forall env w packageName version global dev arch osName info,
    getInstalledPackage (manager w) packageName = Some info ->
    (version = "" \/ Version info = version ->
     InstallPackage env packageName version global false dev arch osName w
       = (Err (ErrAlreadyInstalled packageName (Version info)), w)) /\
    (version <> "" -> Version info <> version ->
     forall name installed,
       fst (InstallPackage env packageName version global false dev arch osName w)
         <> Err (ErrAlreadyInstalled name installed)).
Proof.
  intros env w packageName version global dev arch osName info Hget. split.
  - intros Hsame.
    unfold InstallPackage, check_not_installed. run. rewrite Hget.
    assert (Hb : bool_decide (version = "") || bool_decide (Version info = version) = true).
    { destruct Hsame as [H|H]; [rewrite (bool_decide_eq_true_2 _ H) | 
                                rewrite (bool_decide_eq_true_2 _ H), orb_true_r];
        reflexivity. }
    now rewrite Hb.
  - intros Hv Hdiff name installed.
    assert (Hb : bool_decide (version = "") || bool_decide (Version info = version) = false).
    { rewrite (bool_decide_eq_false_2 _ Hv), (bool_decide_eq_false_2 _ Hdiff). reflexivity. }
    unfold InstallPackage, check_not_installed, downloadPackage, extractArchive,
      loadManifestFromDir, os_RemoveAll, os_MkdirAll, copyFiles, savePackageInfo,
      write_packages.
    run. rewrite Hget. simpl. rewrite Hb. run.
    repeat install_step; simpl; discriminate.
Qed.

(** Witness for C4: demo 1.0.0 is installed; an unforced request without
    a version is refused, and so is one for 1.0.0. *)
Lemma InstallPackage_unforced_existing_witness :
  let env := Example.env Example.unpack "demo@1.1.0" in
  let w := Example.world [Example.P4] {[ "demo" := Example.installed "1.0.0" false ]} ∅ ∅ in
  InstallPackage env "demo" "" false false false "" "" w
    = (Err (ErrAlreadyInstalled "demo" "1.0.0"), w) /\
  InstallPackage env "demo" "1.0.0" false false false "" "" w
    = (Err (ErrAlreadyInstalled "demo" "1.0.0"), w) /\
  fst (InstallPackage env "demo" "1.1.0" false false false "" "" w)
    <> Err (ErrAlreadyInstalled "demo" "1.0.0").
Proof.
  intros env w.
  assert (Hget : getInstalledPackage (manager w) "demo"
                 = Some (Example.installed "1.0.0" false)) by (vm_compute; reflexivity).
  split; [|split].
  - apply (InstallPackage_unforced_existing env w "demo" "" false false "" "" _ Hget).
    left. reflexivity.
  - apply (InstallPackage_unforced_existing env w "demo" "1.0.0" false false "" "" _ Hget).
    right. reflexivity.
  - apply (InstallPackage_unforced_existing env w "demo" "1.1.0" false false "" "" _ Hget).
    + discriminate.
    + vm_compute. discriminate.
Defined.

(** C4, the claim as stated fails: demo 1.0.0 is installed and 1.1.0 is
    requested without [force]. The request passes the check: with the
    shipped codec it fails only at extraction, and with a working codec it
    succeeds and the record under demo becomes 1.1.0. *)
Lemma InstallPackage_other_version_counterexample :
  let w := Example.world [Example.P4] {[ "demo" := Example.installed "1.0.0" false ]} ∅ ∅ in
  getInstalledPackage (manager w) "demo" = Some (Example.installed "1.0.0" false) /\
  fst (InstallPackage (Example.env unimplemented_codec "demo@1.1.0")
         "demo" "1.1.0" false false false "" "" w) = Err ErrExtract /\
  let out := InstallPackage (Example.env Example.unpack "demo@1.1.0")
               "demo" "1.1.0" false false false "" "" w in
  fst out = Ok tt /\
  Version <$> getInstalledPackage (manager (snd out)) "demo" = Some "1.1.0".
Proof. vm_compute. repeat split. Qed.

(** What a successful [InstallPackage] has done. *)
Lemma InstallPackage_Ok_inv env packageName version global force dev arch osName w w' :
  InstallPackage env packageName version global force dev arch osName w = (Ok tt, w') ->
  let cfg := config (manager w) in
  let path := packagesPath env cfg global in
  exists found archive tree data manifest size,
    findPackage env cfg packageName version
                (or_default arch (GOARCH env)) (or_default osName (GOOS env)) = Ok found /\
    http_download env (snd found) packageName (Version (fst found)) = Some archive /\
    archive_codec env archive = Some tree /\
    tree !! "criage.yaml" = Some data /\
    json_manifest env data = Some manifest /\
    let info := record_of env manifest (getInstallPath env cfg packageName global)
                          global size in
    installedPackages (manager w')
      = <[packageName := info]> (installedPackages (manager w)) /\
    files (disk w')
      = <[path := Bytes false
                    (Some (<[m_Name manifest := info]>
                             (default ∅ (read_packages (disk w) path))))]>
          (files (disk w)).
Proof.
  unfold or_default.
  destruct force; install_cases; try discriminate; intros [= <-]; simpl;
    do 6 eexists; repeat split; try eassumption; try reflexivity.
Qed.

(** C10. After a successful [InstallPackage] the record sits in the
    in-memory map under the requested name, while its [Name] field and the
    key under which it is written to the partition document are the name
    declared by the manifest of the tree unpacked from the downloaded
    archive. When the manifest
    declares another name than the requested one, the two keys differ: the
    document gains the record under the manifest name and its entry under
    the requested name is as before, and the in-memory entry under the
    manifest name is as before. *)
Theorem InstallPackage_memory_and_disk_keys :
  forall env requestedName version global force dev arch osName w w',
    InstallPackage env requestedName version global force dev arch osName w = (Ok tt, w') ->
    let path := packagesPath env (config (manager w)) global in
    exists url resolved archive tree data manifest info,
      http_download env url requestedName resolved = Some archive /\
      archive_codec env archive = Some tree /\
      tree !! "criage.yaml" = Some data /\
      json_manifest env data = Some manifest /\
      Name info = m_Name manifest /\
      getInstalledPackage (manager w') requestedName = Some info /\
      read_packages (disk w') path
        ≫= (fun packages => packages !! m_Name manifest) = Some info /\
      (m_Name manifest <> requestedName ->
       read_packages (disk w') path ≫= (fun packages => packages !! requestedName)
         = read_packages (disk w) path ≫= (fun packages => packages !! requestedName) /\
       getInstalledPackage (manager w') (m_Name manifest)
         = getInstalledPackage (manager w) (m_Name manifest)).
Proof.
  intros env requestedName version global force dev arch osName w w' Hrun path.
  destruct (InstallPackage_Ok_inv _ _ _ _ _ _ _ _ _ _ Hrun)
    as (found & archive & tree & data & manifest & size & _ & Hget & Hcodec & Hdata
        & Hmanifest & Hmem & Hfiles).
  fold path in Hfiles.
  set (info := record_of env manifest
                 (getInstallPath env (config (manager w)) requestedName global)
                 global size) in *.
  assert (Hread : read_packages (disk w') path
                  = Some (<[m_Name manifest := info]>
                            (default ∅ (read_packages (disk w) path)))).
  { unfold read_packages at 1. now rewrite Hfiles, lookup_insert_eq. }
  exists (snd found), (Version (fst found)), archive, tree, data, manifest, info.
  unfold getInstalledPackage. rewrite Hmem, Hread. simpl.
  rewrite !lookup_insert_eq.
  repeat split; try assumption.
  - rewrite lookup_insert_ne by assumption.
    destruct (read_packages (disk w) path); simpl; [reflexivity | apply lookup_empty].
  - now rewrite lookup_insert_ne by congruence.
Qed.

(** Witness for C10: demo is requested, the unpacked manifest declares
    demo-core; the record is held in memory under demo and on disk under
    demo-core. *)
Lemma InstallPackage_memory_and_disk_keys_witness :
  let env := Example.env Example.unpack "demo-core@1.0.0" in
  let w := Example.world [Example.P3] ∅ ∅ ∅ in
  exists w' info,
    InstallPackage env "demo" "" false false false "" "" w = (Ok tt, w') /\
    Name info = "demo-core" /\
    getInstalledPackage (manager w') "demo" = Some info /\
    getInstalledPackage (manager w') "demo-core" = None /\
    read_packages (disk w') Example.local_json
      ≫= (fun packages => packages !! "demo-core") = Some info /\
    read_packages (disk w') Example.local_json
      ≫= (fun packages => packages !! "demo") = None.
Proof.
  intros env w.
  destruct (InstallPackage env "demo" "" false false false "" "" w) as [r w'] eqn:Hrun.
  assert (Hr : r = Ok tt).
  { change r with (fst (r, w')). rewrite <- Hrun. vm_compute. reflexivity. }
  subst r. exists w'.
  destruct (InstallPackage_memory_and_disk_keys env "demo" "" false false false "" ""
              w w' Hrun)
    as (url & resolved & archive & tree & data & manifest & info & Hget & Hcodec & Hdata
        & Hmanifest & Hname & Hmem & Hdisk & Hdiffer).
  simpl in Hget, Hcodec. injection Hget as <-. injection Hcodec as <-.
  rewrite lookup_singleton_eq in Hdata. injection Hdata as <-.
  vm_compute in Hmanifest. injection Hmanifest as <-.
  exists info. simpl in Hname, Hdisk, Hdiffer.
  destruct Hdiffer as [Hdisk' Hmem']; [discriminate|].
  split; [reflexivity|]. split; [exact Hname|]. split; [exact Hmem|].
  split; [rewrite Hmem'; reflexivity|]. split; [exact Hdisk|].
  etransitivity; [exact Hdisk' | reflexivity].
Defined.

(* ===================================================================== *)
(** ** UpdatePackage *)
(* ===================================================================== *)




(* ===================================================================== *)
(** ** SearchPackages *)
(* ===================================================================== *)

(** *** The order of float64 scores *)

Lemma SFleb_trans (x y z : spec_float) :
  SFleb x y = true -> SFleb y z = true -> SFleb x z = true.
Proof.
  unfold SFleb, SFcompare.
  destruct x as [sx|sx| |sx mx ex], y as [sy|sy| |sy my ey], z as [sz|sz| |sz mz ez];
    try destruct sx; try destruct sy; try destruct sz; simpl; try congruence;
    change (Pos.compare_cont Eq) with Pos.compare;
    destruct (Z.compare_spec ex ey), (Z.compare_spec ey ez), (Z.compare_spec ex ez);
    try lia; try congruence; subst;
    destruct (Pos.compare_spec mx my), (Pos.compare_spec my mz), (Pos.compare_spec mx mz);
    simpl; try lia; try congruence.
Qed.

Lemma SFltb_SFleb (x y : spec_float) : SFltb x y = true -> SFleb x y = true.
Proof. unfold SFltb, SFleb. now destruct (SFcompare x y) as [[]|]. Qed.

Lemma SFltb_false_SFleb (x y : spec_float) :
  x <> S754_nan -> y <> S754_nan -> SFltb x y = false -> SFleb y x = true.
Proof.
  unfold SFleb, SFltb, SFcompare.
  destruct x as [sx|sx| |sx mx ex], y as [sy|sy| |sy my ey];
    try destruct sx; try destruct sy; simpl; try congruence;
    change (Pos.compare_cont Eq) with Pos.compare;
    rewrite (Z.compare_antisym ex ey), (Pos.compare_antisym mx my);
    destruct (ex ?= ey)%Z; simpl; try congruence;
    destruct (mx ?= my)%positive; simpl; congruence.
Qed.

(** *** The sort *)

Section Sort.

Context {A : Type} (less : A -> A -> bool).

Lemma sort_insert_Permutation (x : A) (l : list A) :
  Permutation (x :: l) (sort_insert less x l).
Proof.
  induction l as [|y l IH]; simpl; [reflexivity|].
  destruct (less x y); [reflexivity|].
  rewrite perm_swap. now apply perm_skip.
Qed.

Lemma sort_Slice_Permutation (l : list A) : Permutation l (sort_Slice less l).
Proof.
  induction l as [|x l IH]; simpl; [reflexivity|].
  rewrite <- sort_insert_Permutation. now apply perm_skip.
Qed.

(** [before] is the order the output is to have, on the values [good]. *)
Context (good : A -> Prop) (before : A -> A -> Prop).
Hypothesis before_trans : forall x y z, before x y -> before y z -> before x z.
Hypothesis less_before : forall x y, less x y = true -> before x y.
Hypothesis not_less_before :
  forall x y, good x -> good y -> less x y = false -> before y x.

Lemma sort_insert_Sorted (x : A) (l : list A) :
  good x -> Forall good l ->
  StronglySorted before l -> StronglySorted before (sort_insert less x l).
Proof.
  intros Hx Hgood Hsorted. induction Hsorted as [|y l Hl IH Hy]; simpl.
  - repeat constructor.
  - inversion Hgood as [|? ? Hgy Hgl]; subst.
    destruct (less x y) eqn:Hless.
    + constructor; [now constructor|].
      constructor; [now apply less_before|].
      eapply Forall_impl; [exact Hy|].
      intros z Hz. eapply before_trans; [apply less_before|]; eassumption.
    + constructor; [now apply IH|].
      rewrite <- (sort_insert_Permutation x l).
      constructor; [now apply not_less_before | exact Hy].
Qed.

Lemma sort_Slice_Sorted (l : list A) :
  Forall good l -> StronglySorted before (sort_Slice less l).
Proof.
  induction 1 as [|x l Hx Hl IH]; simpl; [constructor|].
  apply sort_insert_Sorted; [exact Hx | | exact IH].
  now rewrite <- (sort_Slice_Permutation l).
Qed.

End Sort.

(** The loop of [SearchPackages] appends the contributions of the
    repositories in list order. *)
Lemma search_loop_flat_map env query (repos : list Repository) (acc : list SearchResult) :
  fold_left (search_step env query) repos acc
  = (acc ++ flat_map (contribution env query) repos)%list.
Proof.
  revert acc. induction repos as [|repo rest IH]; intros acc; simpl.
  - now rewrite app_nil_r.
  - rewrite IH. unfold search_step, contribution.
    destruct (repo_Enabled repo); simpl; [|reflexivity].
    destruct (searchInRepository env repo query); simpl; [|reflexivity].
    now rewrite <- app_assoc.
Qed.

(** C7. [SearchPackages] never fails. Its result is a rearrangement of
    the concatenation, over the configured repositories in order, of what
    each contributes: the results of its search when it is enabled and the
    request succeeds, nothing when it is disabled or the request fails. The
    result is in descending order of [Score] (scores decoded from JSON are
    never NaN). *)
Theorem SearchPackages_sorted_concat :
  forall env cfg query,
    exists results,
      SearchPackages env cfg query = Ok results /\
      Permutation (flat_map (contribution env query) (Repositories cfg)) results /\
      (Forall (fun r => sr_Score r <> S754_nan)
              (flat_map (contribution env query) (Repositories cfg)) ->
       StronglySorted score_ge results).
Proof.
  intros env cfg query. unfold SearchPackages.
  rewrite search_loop_flat_map. simpl.
  eexists. split; [reflexivity|]. split; [apply sort_Slice_Permutation|].
  apply sort_Slice_Sorted.
  - intros x y z Hxy Hyz. unfold score_ge in *. eapply SFleb_trans; eassumption.
  - intros x y. unfold score_greater, score_ge. apply SFltb_SFleb.
  - intros x y Hx Hy. unfold score_greater, score_ge.
    now apply SFltb_false_SFleb.
Qed.

(** Witness for C7: [P1] is disabled, [P2] answers with scores 1 and 3,
    [P3] is unreachable, [P4] answers with score 2; the result lists the
    three hits of [P2] and [P4] by score 3, 2, 1. *)
Lemma SearchPackages_sorted_concat_witness :
  let env := Example.env Example.unpack "" in
  let cfg := Example.cfg [Example.P1; Example.P2; Example.P3; Example.P4] in
  SearchPackages env cfg "demo"
    = Ok [Example.hit "demo-cli" Example.three; Example.hit "demo-lib" Example.two;
          Example.hit "demo" Example.one] /\
  StronglySorted score_ge
    [Example.hit "demo-cli" Example.three; Example.hit "demo-lib" Example.two;
     Example.hit "demo" Example.one].
Proof.
  intros env cfg.
  destruct (SearchPackages_sorted_concat env cfg "demo") as (results & Hrun & _ & Hsorted).
  assert (Hresults : SearchPackages env cfg "demo"
                     = Ok [Example.hit "demo-cli" Example.three;
                           Example.hit "demo-lib" Example.two;
                           Example.hit "demo" Example.one]) by (vm_compute; reflexivity).
  split; [exact Hresults|].
  rewrite Hresults in Hrun. injection Hrun as <-.
  apply Hsorted. vm_compute. repeat constructor; discriminate.
Defined.

(* ===================================================================== *)
(** ** Rate limiter *)
(* ===================================================================== *)

(** C8, as amended. [Close] on a limiter whose permit channel is open
    returns, with the ticker stopped and the channel closed; it is not
    idempotent: [Close] on the limiter so obtained panics, on closing the
    closed channel. *)
Theorem RateLimiter_Close_once :
  forall rl,
    RateLimiter.closed (RateLimiter.requests rl) = false ->
    exists rl',
      RateLimiter.Close rl = RateLimiter.Returns rl' /\
      RateLimiter.running (RateLimiter.ticker rl') = false /\
      RateLimiter.closed (RateLimiter.requests rl') = true /\
      RateLimiter.Close rl' = RateLimiter.Panics "close of closed channel".
Proof.
  intros rl Hopen. unfold RateLimiter.Close at 1. rewrite Hopen.
  eexists. repeat split.
Qed.

(** Witness for C8: the limiter of the package manager, five requests per
    second. *)
Lemma RateLimiter_Close_once_witness :
  exists rl rl',
    RateLimiter.NewRateLimiter 5 = RateLimiter.Returns rl /\
    RateLimiter.Close rl = RateLimiter.Returns rl' /\
    RateLimiter.running (RateLimiter.ticker rl') = false /\
    RateLimiter.Close rl' = RateLimiter.Panics "close of closed channel".
Proof.
  eexists.
  destruct (RateLimiter_Close_once
              {| RateLimiter.ticker :=
                   {| RateLimiter.interval := 200000000; RateLimiter.running := true |};
                 RateLimiter.requests :=
                   {| RateLimiter.queued := 1; RateLimiter.closed := false |} |})
    as (rl' & Hclose & Hstopped & _ & Hagain); [reflexivity|].
  exists rl'. split; [reflexivity|]. split; [exact Hclose|]. split; assumption.
Defined.

(** C8, the claim as stated fails: closing a fresh limiter twice panics. *)
Lemma RateLimiter_Close_twice_counterexample :
  RateLimiter.and_then
    (RateLimiter.and_then (RateLimiter.NewRateLimiter 5) RateLimiter.Close)
    RateLimiter.Close
  = RateLimiter.Panics "close of closed channel".
Proof. reflexivity. Qed.

(* ===================================================================== *)
(** ** Further properties of the registry store *)
(* ===================================================================== *)

(** X1. A successful [savePackageInfo] rewrites the partition file of the
    record's own scope to the previous document (the empty one when the
    file was missing or decoded to nothing) with the record inserted under
    its [Name]; the record reads back, every other entry of the document
    is kept, and nothing else changes. *)
Theorem savePackageInfo_read_back :
  forall env info w w',
    savePackageInfo env info w = (Ok tt, w') ->
    let path := packagesPath env (config (manager w)) (Global info) in
    read_packages (disk w') path
      = Some (<[Name info := info]> (default ∅ (read_packages (disk w) path))) /\
    recorded (disk w') path (Name info) = Some info /\
    (forall name, name <> Name info ->
       recorded (disk w') path name = recorded (disk w) path name) /\
    (forall other, other <> path ->
       files (disk w') !! other = files (disk w) !! other) /\
    manager w' = manager w /\
    dirs (disk w') = dirs (disk w).
Proof.
  intros env info w w' Hsave path. unfold savePackageInfo in Hsave. run.
  fold path in Hsave.
  pose proof (write_packages_manager env path
                (<[Name info := info]> (default ∅ (read_packages (disk w) path))) w)
    as [Hm Hd].
  pose proof (write_packages_other env path
                (<[Name info := info]> (default ∅ (read_packages (disk w) path))) w)
    as Hother.
  rewrite Hsave in Hm, Hd, Hother. simpl in Hm, Hd, Hother.
  apply write_packages_Ok in Hsave.
  assert (Hread : read_packages (disk w') path
                  = Some (<[Name info := info]> (default ∅ (read_packages (disk w) path)))).
  { subst w'. unfold read_packages at 1. simpl. now rewrite lookup_insert_eq. }
  unfold recorded. rewrite Hread. simpl.
  repeat split; auto.
  - apply lookup_insert_eq.
  - intros name Hne. rewrite lookup_insert_ne by congruence.
    destruct (read_packages (disk w) path); simpl; [reflexivity | apply lookup_empty].
Qed.

(** Witness for X1: a second package is saved into a local partition
    file that already records demo. *)
Lemma savePackageInfo_read_back_witness :
  let env := Example.env Example.unpack "" in
  let demo := Example.installed "1.0.0" false in
  let tool := record_of env {| m_Name := "tool"; m_Version := "2.0.0"; m_Description := "";
                               m_Author := ""; m_License := "MIT"; m_Dependencies := ∅;
                               m_Files := []; m_Scripts := ∅ |}
                        "./criage_modules/tool" false 0 in
  let w := Example.world [] ∅
             {[ Example.local_json := Bytes false (Some {[ "demo" := demo ]}) ]} ∅ in
  let w' := snd (savePackageInfo env tool w) in
  recorded (disk w') Example.local_json "tool" = Some tool /\
  recorded (disk w') Example.local_json "demo" = Some demo.
Proof.
  intros env demo tool w w'.
  destruct (savePackageInfo_read_back env tool w w') as (_ & Htool & Hkept & _).
  - vm_compute. reflexivity.
  - split; [exact Htool|].
    etransitivity; [apply (Hkept "demo"); discriminate | vm_compute; reflexivity].
Defined.

(** X2. [removePackageInfo] writes nothing, and succeeds, when the
    partition file is missing or decodes to no document. When it succeeds,
    the entry under the name is gone from the document and every other
    entry is kept. In every outcome the other files, the directories and
    the in-memory map are untouched. *)
Theorem removePackageInfo_deletes_one :
  forall env packageName global w,
    let path := packagesPath env (config (manager w)) global in
    let out := removePackageInfo env packageName global w in
    (read_packages (disk w) path = None -> out = (Ok tt, w)) /\
    (fst out = Ok tt ->
     forall name,
       recorded (disk (snd out)) path name
       = if decide (name = packageName) then None else recorded (disk w) path name) /\
    (forall other, other <> path ->
       files (disk (snd out)) !! other = files (disk w) !! other) /\
    manager (snd out) = manager w /\
    dirs (disk (snd out)) = dirs (disk w).
Proof.
  intros env packageName global w path out.
  pose proof (removePackageInfo_frame env packageName global w) as (Hm & Hd & Hother).
  fold out in Hm, Hd, Hother. fold path in Hother.
  split; [|split; [|auto]].
  - intros Hnone. subst out. unfold removePackageInfo. run. fold path. now rewrite Hnone.
  - intros Hok name. subst out. unfold removePackageInfo in *. run. fold path in Hok |- *.
    unfold recorded.
    destruct (read_packages (disk w) path) as [packages|] eqn:Hread; simpl in *.
    + destruct (write_packages env path (delete packageName packages) w)
        as [r w'] eqn:Hwrite. simpl in Hok. subst r.
      apply write_packages_Ok in Hwrite. subst w'.
      unfold read_packages at 1. simpl. rewrite lookup_insert_eq. simpl.
      destruct (decide (name = packageName)) as [->|Hne].
      * apply lookup_delete_eq.
      * now apply lookup_delete_ne.
    + rewrite Hread. simpl. now destruct (decide (name = packageName)).
Qed.

(** Witness for X2: demo is removed from a local partition file that
    also records tool; with no global partition file, removing from the
    global scope changes nothing. *)
Lemma removePackageInfo_deletes_one_witness :
  let env := Example.env Example.unpack "" in
  let demo := Example.installed "1.0.0" false in
  let w := Example.world [] ∅
             {[ Example.local_json := Bytes false (Some {[ "demo" := demo; "tool" := demo ]}) ]}
             ∅ in
  removePackageInfo env "demo" true w = (Ok tt, w) /\
  recorded (disk (snd (removePackageInfo env "demo" false w))) Example.local_json "demo"
    = None /\
  recorded (disk (snd (removePackageInfo env "demo" false w))) Example.local_json "tool"
    = Some demo.
Proof.
  intros env demo w.
  destruct (removePackageInfo_deletes_one env "demo" true w) as (Hnothing & _).
  destruct (removePackageInfo_deletes_one env "demo" false w) as (_ & Hgone & _).
  split; [apply Hnothing; vm_compute; reflexivity|].
  split.
  - etransitivity; [apply (Hgone eq_refl "demo") | reflexivity].
  - etransitivity; [apply (Hgone eq_refl "tool") | vm_compute; reflexivity].
Defined.

(** *** Loading at start-up *)

Lemma load_partition_absent path w :
  files (disk w) !! path = None -> load_partition path w = (Ok tt, w).
Proof.
  intros Hnone. unfold load_partition, loadPackagesFromFile. now rewrite Hnone.
Qed.

Lemma load_partition_clean path w decoded :
  files (disk w) !! path = Some (Bytes false decoded) ->
  load_partition path w
    = (Ok tt, set_installed (fun installed => default ∅ decoded ∪ installed) w).
Proof.
  intros Hfile. unfold load_partition, loadPackagesFromFile. now rewrite Hfile.
Qed.

Lemma load_partition_broken path w :
  files (disk w) !! path = Some Unreadable \/
  (exists decoded, files (disk w) !! path = Some (Bytes true decoded)) ->
  exists e, load_partition path w = (Err e, w).
Proof.
  unfold load_partition, loadPackagesFromFile.
  intros [Hfile | [decoded Hfile]]; rewrite Hfile; eexists; reflexivity.
Qed.

(** X3. [loadInstalledPackages] skips a partition file that does not
    exist: with neither file it succeeds and changes nothing, and with
    only the local file it merges that document into the map. A partition
    file that exists but cannot be read or decoded fails the load: when it
    is the global one nothing is loaded at all, when it is the local one
    the entries of the global document have already been merged. *)
Theorem loadInstalledPackages_missing_and_broken :
  forall env w,
    let global_json := packagesPath env (config (manager w)) true in
    let local_json := packagesPath env (config (manager w)) false in
    let broken path :=
      files (disk w) !! path = Some Unreadable \/
      exists decoded, files (disk w) !! path = Some (Bytes true decoded) in
    (files (disk w) !! global_json = None -> files (disk w) !! local_json = None ->
     loadInstalledPackages env w = (Ok tt, w)) /\
    (forall l,
        files (disk w) !! global_json = None ->
        files (disk w) !! local_json = Some (Bytes false (Some l)) ->
        loadInstalledPackages env w
          = (Ok tt, set_installed (fun installed => l ∪ installed) w)) /\
    (broken global_json -> exists e, loadInstalledPackages env w = (Err e, w)) /\
    (forall g,
        files (disk w) !! global_json = Some (Bytes false (Some g)) ->
        broken local_json ->
        exists e, loadInstalledPackages env w
                  = (Err e, set_installed (fun installed => g ∪ installed) w)).
Proof.
  intros env w global_json local_json broken.
  unfold loadInstalledPackages, bind, gets. cbv beta.
  fold global_json local_json.
  split; [|split; [|split]].
  - intros Hg Hl. rewrite (load_partition_absent _ w Hg). cbv beta iota.
    now rewrite (load_partition_absent _ w Hl).
  - intros l Hg Hl. rewrite (load_partition_absent _ w Hg). cbv beta iota.
    now rewrite (load_partition_clean _ w _ Hl).
  - intros Hg. destruct (load_partition_broken _ w Hg) as [e ->]. now exists e.
  - intros g Hg Hl. rewrite (load_partition_clean _ w _ Hg).
    cbv beta iota. change (default ∅ (Some g)) with g.
    destruct (load_partition_broken local_json
                (set_installed (fun installed => g ∪ installed) w) Hl) as [e ->].
    now exists e.
Qed.

(** Witness for X3: a first run without partition files; a run with a
    truncated global file. *)
Lemma loadInstalledPackages_missing_and_broken_witness :
  let env := Example.env Example.unpack "" in
  let fresh := Example.world [] ∅ ∅ ∅ in
  let damaged := Example.world [] ∅ {[ Example.global_json := Bytes true None ]} ∅ in
  loadInstalledPackages env fresh = (Ok tt, fresh) /\
  exists e, loadInstalledPackages env damaged = (Err e, damaged).
Proof.
  intros env fresh damaged. split.
  - apply (loadInstalledPackages_missing_and_broken env fresh); reflexivity.
  - apply (loadInstalledPackages_missing_and_broken env damaged).
    right. exists None. reflexivity.
Defined.

(** X4. After a successful install into the local scope, a package
    manager restarted on the same disk (the global partition file absent or
    cleanly decodable) loads the record that the running manager holds
    under the requested name, and holds it under the record's own [Name],
    the name declared by the manifest. *)
Theorem InstallPackage_survives_restart :
  forall env requestedName version force dev arch osName w w',
    InstallPackage env requestedName version false force dev arch osName w = (Ok tt, w') ->
    (files (disk w') !! packagesPath env (config (manager w)) true = None \/
     exists g, files (disk w') !! packagesPath env (config (manager w)) true
               = Some (Bytes false g)) ->
    exists info w'',
      getInstalledPackage (manager w') requestedName = Some info /\
      loadInstalledPackages env (restarted w') = (Ok tt, w'') /\
      getInstalledPackage (manager w'') (Name info) = Some info.
Proof.
  intros env requestedName version force dev arch osName w w' Hrun Hglobal.
  destruct (InstallPackage_Ok_inv _ _ _ _ _ _ _ _ _ _ Hrun)
    as (found & archive & tree & data & manifest & size & _ & _ & _ & _ & _ & Hmem & Hfiles).
  set (info := record_of env manifest
                 (getInstallPath env (config (manager w)) requestedName false)
                 false size) in *.
  assert (Hcfg : config (manager (restarted w')) = config (manager w)).
  { simpl. revert Hrun. clear.
    destruct force; install_cases; try discriminate; intros [= <-]; reflexivity. }
  assert (Hlocal : files (disk (restarted w')) !! packagesPath env (config (manager w)) false
                   = Some (Bytes false
                             (Some (<[m_Name manifest := info]>
                                      (default ∅ (read_packages (disk w)
                                         (packagesPath env (config (manager w)) false))))))).
  { simpl. rewrite Hfiles. apply lookup_insert_eq. }
  exists info.
  unfold loadInstalledPackages, bind, gets. cbv beta. rewrite Hcfg.
  destruct Hglobal as [Hg | [g Hg]].
  - rewrite (load_partition_absent _ (restarted w') Hg). cbv beta iota.
    rewrite (load_partition_clean _ (restarted w') _ Hlocal).
    eexists. split; [|split; [reflexivity|]].
    + unfold getInstalledPackage. rewrite Hmem. apply lookup_insert_eq.
    + unfold getInstalledPackage. simpl.
      apply lookup_union_Some_l, lookup_insert_eq.
  - rewrite (load_partition_clean _ (restarted w') _ Hg). cbv beta iota.
    erewrite load_partition_clean; [|exact Hlocal].
    eexists. split; [|split; [reflexivity|]].
    + unfold getInstalledPackage. rewrite Hmem. apply lookup_insert_eq.
    + unfold getInstalledPackage. simpl.
      apply lookup_union_Some_l, lookup_insert_eq.
Qed.

(** Witness for X4: demo is requested and the manifest declares
    demo-core; after a restart the record is found under demo-core. *)
Lemma InstallPackage_survives_restart_witness :
  let env := Example.env Example.unpack "demo-core@1.0.0" in
  let w := Example.world [Example.P3] ∅ ∅ ∅ in
  let w' := snd (InstallPackage env "demo" "" false false false "" "" w) in
  exists info w'',
    getInstalledPackage (manager w') "demo" = Some info /\
    loadInstalledPackages env (restarted w') = (Ok tt, w'') /\
    getInstalledPackage (manager w'') (Name info) = Some info.
Proof.
  intros env w w'.
  apply (InstallPackage_survives_restart env "demo" "" false false "" "" w w').
  - vm_compute. reflexivity.
  - left. vm_compute. reflexivity.
Defined.

(** X5. With the extraction stub that package_manager.go ships, every
    [InstallPackage] and every [UpdatePackage] fails and leaves the whole
    world (the in-memory map, the files, the directories) exactly as it
    was; an install fails at the check, at resolution, at the download or
    at the extraction. *)
Theorem shipped_codec_installs_nothing :
  forall env w packageName version global force dev arch osName,
    archive_codec env = unimplemented_codec ->
    (exists e,
        InstallPackage env packageName version global force dev arch osName w = (Err e, w) /\
        ((exists installed, e = ErrAlreadyInstalled packageName installed) \/
         (exists cause, e = ErrResolve cause) \/ e = ErrDownload \/ e = ErrExtract)) /\
    exists e, UpdatePackage env packageName w = (Err e, w).
Proof.
  intros env w packageName version global force dev arch osName Hcodec.
  assert (Hinstall : forall version global force,
             exists e,
               InstallPackage env packageName version global force dev arch osName w
                 = (Err e, w) /\
               ((exists installed, e = ErrAlreadyInstalled packageName installed) \/
                (exists cause, e = ErrResolve cause) \/ e = ErrDownload \/ e = ErrExtract)).
  { clear version global force. intros version global force.
    unfold InstallPackage, check_not_installed, downloadPackage, extractArchive. run.
    rewrite Hcodec. unfold unimplemented_codec.
    destruct force; run; repeat install_step; eexists; (split; [reflexivity|]); eauto. }
  split; [apply Hinstall|].
  unfold UpdatePackage. run.
  destruct (getInstalledPackage (manager w) packageName) as [current|]; simpl;
    [|eexists; reflexivity].
  destruct (findPackage env (config (manager w)) packageName "" (GOARCH env) (GOOS env))
    as [found|cause]; simpl; [|eexists; reflexivity].
  destruct (bool_decide (Version current = Version found.1)); [eexists; reflexivity|].
  clear Hinstall.
  unfold InstallPackage, check_not_installed, downloadPackage, extractArchive. run.
  rewrite Hcodec. unfold unimplemented_codec.
  repeat install_step; eexists; reflexivity.
Qed.

(** Witness for X5: the request for demo resolves and downloads, and
    stops at the extraction. *)
Lemma shipped_codec_installs_nothing_witness :
  let env := Example.env unimplemented_codec "demo@1.0.0" in
  let w := Example.world [Example.P3] {[ "demo" := Example.installed "0.9.0" false ]} ∅ ∅ in
  InstallPackage env "demo" "" false true false "" "" w = (Err ErrExtract, w) /\
  exists e, UpdatePackage env "demo" w = (Err e, w).
Proof.
  intros env w.
  destruct (shipped_codec_installs_nothing env w "demo" "" false true false "" "" eq_refl)
    as [[e [Hrun _]] Hupdate].
  split; [|exact Hupdate].
  rewrite Hrun. f_equal. 
  assert (He : fst (InstallPackage env "demo" "" false true false "" "" w) = Err ErrExtract)
    by (vm_compute; reflexivity).
  rewrite Hrun in He. simpl in He. congruence.
Defined.

(* ===================================================================== *)
(** ** Further properties of the resolver *)
(* ===================================================================== *)

(** [List.find] returns the first element that passes the test. *)
Lemma find_first {A} (f : A -> bool) (l : list A) (x : A) :
  List.find f l = Some x ->
  f x = true /\
  exists pre post, l = (pre ++ x :: post)%list /\ Forall (fun y => f y = false) pre.
Proof.
  induction l as [|y l IH]; simpl; [discriminate|].
  destruct (f y) eqn:Hy.
  - intros [= <-]. split; [exact Hy|]. exists [], l. split; [reflexivity | constructor].
  - intros Hfind. destruct (IH Hfind) as (Hx & pre & post & -> & Hpre).
    split; [exact Hx|]. exists (y :: pre), post. split; [reflexivity|].
    now constructor.
Qed.

(** X6. What a successful [findInRepository] has selected. The reply
    was a 200 with [success] set and a package. The version is the last of
    the list when none was requested, and otherwise the first of the list
    with the requested version string. The file is the first of that
    version for exactly the requested OS and architecture. The returned
    record carries the package name of the reply (not the requested one),
    the version string and the size of the file, and the download URL is
    built from the repository URL, that name, the version and the file
    name. *)
Theorem findInRepository_selection :
  forall env repo packageName version arch osName info url,
    findInRepository env repo packageName version arch osName = Ok (info, url) ->
    exists pkg selected file,
      http_package env (package_request repo packageName)
        = Reply 200 (Some {| pe_Success := true; pe_Data := Some pkg |}) /\
      (version = "" -> last (rp_Versions pkg) = Some selected) /\
      (version <> "" ->
       rv_Version selected = version /\
       exists earlier later,
         rp_Versions pkg = (earlier ++ selected :: later)%list /\
         Forall (fun v => rv_Version v <> version) earlier) /\
      rf_OS file = osName /\ rf_Arch file = arch /\
      (exists before after,
          rv_Files selected = (before ++ file :: after)%list /\
          Forall (fun f => ~ (rf_OS f = osName /\ rf_Arch f = arch)) before) /\
      Name info = rp_Name pkg /\
      Version info = rv_Version selected /\
      Size info = rf_Size file /\
      url = repo_URL repo ++ "/api/v1/download/" ++ rp_Name pkg ++ "/"
              ++ rv_Version selected ++ "/" ++ rf_Filename file.
Proof.
  intros env repo packageName version arch osName info url.
  unfold findInRepository.
  destruct (http_package env (package_request repo packageName))
    as [|status [[success [pkg|]]|]]; try discriminate;
    destruct (status =? 200) eqn:Hstatus; simpl; try discriminate;
    destruct success; try discriminate.
  apply Z.eqb_eq in Hstatus. subst status.
  destruct (select_version (rp_Versions pkg) version) as [selected|] eqn:Hversion;
    [|discriminate].
  destruct (select_file (rv_Files selected) osName arch) as [file|] eqn:Hfile;
    [|discriminate].
  intros [= <- <-]. simpl.
  exists pkg, selected, file.
  apply find_first in Hfile as (Hmatch & before & after & Hfiles & Hbefore).
  apply andb_true_iff in Hmatch as [Hos Harch].
  apply bool_decide_eq_true_1 in Hos, Harch.
  unfold select_version in Hversion.
  split; [reflexivity|].
  split; [intros ->; exact Hversion|].
  split.
  { intros Hne. destruct (decide (version = "")) as [|_]; [contradiction|].
    apply find_first in Hversion as (Hv & earlier & later & Hversions & Hearlier).
    apply bool_decide_eq_true_1 in Hv. split; [exact Hv|].
    exists earlier, later. split; [exact Hversions|].
    eapply Forall_impl; [exact Hearlier|]. intros v Hvne.
    now apply bool_decide_eq_false_1 in Hvne. }
  repeat split; try assumption.
  exists before, after. split; [exact Hfiles|].
  eapply Forall_impl; [exact Hbefore|]. intros f Hf [Hfos Hfarch].
  apply andb_false_iff in Hf as [Hf|Hf]; apply bool_decide_eq_false_1 in Hf; contradiction.
Qed.

(** Witness for X6: the latest demo for linux/amd64 from [P4] is 1.1.0. *)
Lemma findInRepository_selection_witness :
  exists info url,
    findInRepository (Example.env Example.unpack "") Example.P4 "demo" "" "amd64" "linux"
      = Ok (info, url) /\
    Version info = "1.1.0" /\
    url = "https://p4/api/v1/download/demo/1.1.0/demo-linux-amd64.tar.zst".
Proof.
  destruct (findInRepository (Example.env Example.unpack "") Example.P4
              "demo" "" "amd64" "linux") as [[info url]|e] eqn:Hfound;
    [|vm_compute in Hfound; discriminate Hfound].
  exists info, url. split; [reflexivity|].
  destruct (findInRepository_selection _ _ _ _ _ _ _ _ Hfound)
    as (pkg & selected & file & Hreply & Hlast & _ & _ & _ & _ & _ & Hversion & _ & Hurl).
  vm_compute in Hfound. injection Hfound as <- <-. split; reflexivity.
Defined.

(** X7. A successful [findPackage] returns the answer of a configured
    repository that is enabled, never one of a disabled repository; and
    whatever made the repositories fail, the failure of [findPackage] is
    the one package-not-found error, with the individual errors dropped. *)
Theorem findPackage_provenance :
  forall env cfg packageName version arch osName,
    (forall found,
        findPackage env cfg packageName version arch osName = Ok found ->
        exists repo,
          In repo (Repositories cfg) /\ repo_Enabled repo = true /\
          findInRepository env repo packageName version arch osName = Ok found) /\
    (forall e,
        findPackage env cfg packageName version arch osName = Err e ->
        e = ErrPackageNotFound packageName /\
        Forall (fun repo => satisfies env packageName version arch osName repo = false)
               (Repositories cfg)).
Proof.
  intros env cfg n v a o. unfold findPackage. rewrite findPackage_loop_find.
  destruct (List.find (satisfies env n v a o) (Repositories cfg)) as [repo|] eqn:Hfind.
  - apply find_some in Hfind as [Hin Hsat].
    unfold satisfies in Hsat. apply andb_true_iff in Hsat as [Hen Hok].
    split.
    + intros found Hfound. exists repo. auto.
    + intros e He. rewrite He in Hok. discriminate Hok.
  - split; [discriminate|].
    intros e [= <-]. split; [reflexivity|].
    apply List.Forall_forall. intros repo Hin.
    exact (find_none _ _ Hfind repo Hin).
Qed.

(** Witness for X7: the answer for demo over [P1; P2; P3] is the one of
    the enabled [P3], although the disabled [P1] holds the same file;
    with only the disabled [P1] the package is not found. *)
Lemma findPackage_provenance_witness :
  let env := Example.env Example.unpack "" in
  (exists repo found,
      findPackage env (Example.cfg [Example.P1; Example.P2; Example.P3])
                  "demo" "" "amd64" "linux" = Ok found /\
      repo_Enabled repo = true /\
      findInRepository env repo "demo" "" "amd64" "linux" = Ok found) /\
  findPackage env (Example.cfg [Example.P1]) "demo" "" "amd64" "linux"
    = Err (ErrPackageNotFound "demo").
Proof.
  intros env. split.
  - destruct (findPackage env (Example.cfg [Example.P1; Example.P2; Example.P3])
                "demo" "" "amd64" "linux") as [found|e] eqn:Hfound;
      [|vm_compute in Hfound; discriminate Hfound].
    destruct (findPackage_provenance env (Example.cfg [Example.P1; Example.P2; Example.P3])
                "demo" "" "amd64" "linux") as [Hok _].
    destruct (Hok found Hfound) as (repo & _ & Hen & Hrepo).
    now exists repo, found.
  - destruct (findPackage env (Example.cfg [Example.P1]) "demo" "" "amd64" "linux")
      as [found|e] eqn:Hfound; [vm_compute in Hfound; discriminate Hfound|].
    destruct (findPackage_provenance env (Example.cfg [Example.P1])
                "demo" "" "amd64" "linux") as [_ Herr].
    destruct (Herr e Hfound) as [-> _]. reflexivity.
Defined.

(* ===================================================================== *)
(** ** ListPackages *)
(* ===================================================================== *)

(** *** The byte-wise order of strings *)









(* ===================================================================== *)
(** ** Further properties of the life cycle *)
(* ===================================================================== *)

(** *** calculateDirSize *)

Lemma int64_small (z : Z) : - 2 ^ 63 <= z < 2 ^ 63 -> int64 z = z.
Proof.
  intros Hz. unfold int64.
  rewrite Z.mod_small by lia. lia.
Qed.

Lemma size_fold_exact (entries : list (string * string)) :
  let exact := foldr (uncurry (fun (_ data : string) total =>
                                 total + Z.of_nat (String.length data))) 0 entries in
  0 <= exact /\
  (exact < 2 ^ 63 ->
   foldr (uncurry (fun (_ data : string) size =>
                     int64 (size + Z.of_nat (String.length data)))) 0 entries
   = exact).
Proof.
  induction entries as [|[name data] rest [Hpos IH]]; simpl.
  - split; [lia | reflexivity].
  - split; [lia|]. intros Hsmall.
    rewrite IH by lia. apply int64_small. lia.
Qed.

(** X9. [calculateDirSize] of a directory that does not exist is 0, and
    of an existing directory it is the total number of bytes of its files
    as long as that total is below 2^63 (beyond, the int64 sum wraps). *)
Theorem calculateDirSize_total :
  forall d dir,
    (dirs d !! dir = None -> calculateDirSize d dir = 0) /\
    (forall tree,
        dirs d !! dir = Some tree -> total_bytes tree < 2 ^ 63 ->
        calculateDirSize d dir = total_bytes tree).
Proof.
  intros d dir. unfold calculateDirSize, total_bytes. split.
  - intros ->. simpl. apply map_fold_empty.
  - intros tree -> Hsmall. simpl. rewrite !map_fold_foldr.
    rewrite map_fold_foldr in Hsmall.
    pose proof (size_fold_exact (map_to_list tree)) as [_ Hexact].
    exact (Hexact Hsmall).
Qed.

(** Witness for X9: a directory with two files of 10 and 4 bytes. *)
Lemma calculateDirSize_total_witness :
  let d := {| files := ∅;
              dirs := {[ "./criage_modules/demo" :=
                           {[ "criage.yaml" := "demo@1.0.0"; "main" := "code" ]} ]} |} in
  calculateDirSize d "./criage_modules/tool" = 0 /\
  calculateDirSize d "./criage_modules/demo" = 14.
Proof.
  intros d.
  destruct (calculateDirSize_total d "./criage_modules/tool") as [Hmissing _].
  destruct (calculateDirSize_total d "./criage_modules/demo") as [_ Hpresent].
  split; [apply Hmissing; reflexivity|].
  rewrite (Hpresent {[ "criage.yaml" := "demo@1.0.0"; "main" := "code" ]});
    vm_compute; reflexivity.
Defined.

(** *** Installing *)

Lemma InstallPackage_config env packageName version global force dev arch osName w :
  config (manager (snd (InstallPackage env packageName version global force dev arch osName w)))
  = config (manager w).
Proof. destruct force; install_cases; reflexivity. Qed.







(** *** Updating *)

(** X12. A failed [UpdatePackage] never changes the in-memory map and
    adds no decodable record to any partition file; when it fails with
    not-installed, at resolution, or with already-current, the whole world
    is untouched. *)
Theorem UpdatePackage_failure_registers_nothing :
  forall env packageName w e w',
    UpdatePackage env packageName w = (Err e, w') ->
    installedPackages (manager w') = installedPackages (manager w) /\
    no_new_record (disk w) (disk w') /\
    ((exists name, e = ErrNotInstalled name) \/ (exists cause, e = ErrNoUpdates cause) \/
     (exists name version, e = ErrAlreadyCurrent name version) -> w' = w).
Proof.
  intros env packageName w e w'. unfold UpdatePackage. run.
  destruct (getInstalledPackage (manager w) packageName) as [current|]; simpl.
  - destruct (findPackage env (config (manager w)) packageName "" (GOARCH env) (GOOS env))
      as [found|cause]; simpl.
    + destruct (bool_decide (Version current = Version found.1)).
      * intros [= <- <-]. repeat split; auto. now apply no_new_record_same.
      * intros Hrun.
        pose proof (InstallPackage_Err_kind _ _ _ _ _ _ _ _ _ _ _ Hrun) as Hkind.
        destruct (InstallPackage_Err_registry _ _ _ _ _ _ _ _ _ _ _ Hrun)
          as [Hm [Hsame | [_ [path Htrunc]]]]; rewrite Hm;
          (split; [reflexivity|]);
          (split; [first [ now apply no_new_record_same
                         | now apply (no_new_record_truncated _ _ path) ]|]);
          intros [[name ->] | [[cause ->] | (name & version & ->)]]; discriminate Hkind.
    + intros [= <- <-]. repeat split; auto. now apply no_new_record_same.
  - intros [= <- <-]. repeat split; auto. now apply no_new_record_same.
Qed.

(** Witness for X12: demo is already at the latest version. *)
Lemma UpdatePackage_failure_registers_nothing_witness :
  let env := Example.env Example.unpack "demo@1.1.0" in
  let w := Example.world [Example.P4] {[ "demo" := Example.installed "1.1.0" false ]} ∅ ∅ in
  UpdatePackage env "demo" w = (Err (ErrAlreadyCurrent "demo" "1.1.0"), w).
Proof.
  intros env w.
  destruct (UpdatePackage env "demo" w) as [r w'] eqn:Hrun.
  assert (Hr : r = Err (ErrAlreadyCurrent "demo" "1.1.0")).
  { change r with (fst (r, w')). rewrite <- Hrun. vm_compute. reflexivity. }
  subst r.
  destruct (UpdatePackage_failure_registers_nothing env "demo" w _ w' Hrun) as (_ & _ & Hsame).
  rewrite Hsame; [reflexivity|]. right. right. eauto.
Defined.

(** *** Installing, then uninstalling *)

Lemma removePackageInfo_recorded env packageName global w w' name :
  removePackageInfo env packageName global w = (Ok tt, w') ->
  recorded (disk w') (packagesPath env (config (manager w)) global) name
  = if decide (name = packageName) then None
    else recorded (disk w) (packagesPath env (config (manager w)) global) name.
Proof.
  unfold removePackageInfo, recorded. run.
  destruct (read_packages (disk w) _) as [packages|] eqn:Hread; simpl.
  - intros Hwrite. apply write_packages_Ok in Hwrite. subst w'.
    unfold read_packages at 1. simpl. rewrite lookup_insert_eq. simpl.
    destruct (decide (name = packageName)) as [->|Hne].
    + apply lookup_delete_eq.
    + now apply lookup_delete_ne.
  - intros [= <-]. rewrite Hread. simpl. now destruct (decide (name = packageName)).
Qed.

(** X13. Installing a package and then uninstalling it from the same
    scope removes the in-memory entry and the install directory. The
    partition document loses the entry under the requested name; so when
    the manifest declared the requested name the record is gone from the
    document, and when it declared another name the record written at
    install time is still in the document, under the manifest name. *)
Theorem InstallPackage_then_UninstallPackage :
  forall env packageName version global force dev arch osName purge w w1 w2,
    InstallPackage env packageName version global force dev arch osName w = (Ok tt, w1) ->
    UninstallPackage env packageName global purge w1 = (Ok tt, w2) ->
    let path := packagesPath env (config (manager w)) global in
    exists info,
      getInstalledPackage (manager w1) packageName = Some info /\
      getInstalledPackage (manager w2) packageName = None /\
      dirs (disk w2) !! InstallPath info = None /\
      recorded (disk w2) path packageName = None /\
      (Name info <> packageName -> recorded (disk w2) path (Name info) = Some info).
Proof.
  intros env packageName version global force dev arch osName purge w w1 w2
         Hinstall Huninstall path.
  pose proof (InstallPackage_config env packageName version global force dev arch osName w)
    as Hcfg. rewrite Hinstall in Hcfg. simpl in Hcfg.
  destruct (InstallPackage_Ok_inv _ _ _ _ _ _ _ _ _ _ Hinstall)
    as (found & archive & tree & data & manifest & size & _ & _ & _ & _ & _ & Hmem & Hfiles).
  fold path in Hfiles.
  set (info := record_of env manifest
                 (getInstallPath env (config (manager w)) packageName global)
                 global size) in *.
  assert (Hget : getInstalledPackage (manager w1) packageName = Some info).
  { unfold getInstalledPackage. rewrite Hmem. apply lookup_insert_eq. }
  exists info. split; [exact Hget|].
  pose proof (UninstallPackage_present env packageName global purge w1 info Hget) as Hcases.
  cbv zeta in Hcases. rewrite Huninstall in Hcases.
  destruct Hcases as [[_ [=]] | [(_ & e & w' & _ & [=]) | (_ & w' & Hremove & [= ->])]].
  pose proof (removePackageInfo_frame env packageName global
                (set_dirs (fun ds => delete (InstallPath info) ds) w1)) as (Hm & Hd & _).
  rewrite Hremove in Hm, Hd. simpl in Hm, Hd.
  assert (Hrecorded : forall name,
             recorded (disk w') path name
             = if decide (name = packageName) then None
               else (<[Name info := info]> (default ∅ (read_packages (disk w) path))) !! name).
  { intros name.
    pose proof (removePackageInfo_recorded _ _ _ _ _ name Hremove) as Hrec.
    change (manager (set_dirs ?f w1)) with (manager w1) in Hrec.
    rewrite Hcfg in Hrec. fold path in Hrec. rewrite Hrec.
    destruct (decide (name = packageName)); [reflexivity|].
    unfold recorded, read_packages. simpl. rewrite Hfiles, lookup_insert_eq. reflexivity. }
  unfold getInstalledPackage. simpl. rewrite Hm, Hd.
  split; [apply lookup_delete_eq|]. split; [apply lookup_delete_eq|].
  split.
  - rewrite Hrecorded. now destruct (decide (packageName = packageName)).
  - intros Hne. pose proof (Hrecorded (Name info)) as Hrec.
    destruct (decide (Name info = packageName)) as [Heq|_]; [contradiction|].
    rewrite lookup_insert_eq in Hrec. exact Hrec.
Qed.

(** Witness for X13: demo is requested, the manifest declares
    demo-core; after the uninstall the document still records demo-core. *)
Lemma InstallPackage_then_UninstallPackage_witness :
  let env := Example.env Example.unpack "demo-core@1.0.0" in
  let w := Example.world [Example.P3] ∅ ∅ ∅ in
  let w1 := snd (InstallPackage env "demo" "" false false false "" "" w) in
  let w2 := snd (UninstallPackage env "demo" false false w1) in
  getInstalledPackage (manager w2) "demo" = None /\
  Name <$> recorded (disk w2) Example.local_json "demo-core" = Some "demo-core".
Proof.
  intros env w w1 w2.
  destruct (InstallPackage_then_UninstallPackage env "demo" "" false false false "" "" false
              w w1 w2) as (info & Hget & Hgone & _ & _ & Hstale).
  - vm_compute. reflexivity.
  - vm_compute. reflexivity.
  - split; [exact Hgone|].
    assert (Hname : Name info = "demo-core").
    { assert (Hn : Name <$> getInstalledPackage (manager w1) "demo" = Some "demo-core")
        by (vm_compute; reflexivity).
      rewrite Hget in Hn. now injection Hn. }
    rewrite <- Hname at 1.
    change Example.local_json with (packagesPath env (config (manager w)) false).
    rewrite Hstale; [simpl; now rewrite Hname | rewrite Hname; discriminate].
Defined.



(* ===================================================================== *)
(** ** Further properties of the rate limiter *)
(* ===================================================================== *)

(** X15. [NewRateLimiter] treats every non-positive rate as 10 per
    second. For a rate from 1 to 1,000,000,000 it returns a limiter whose
    ticker runs with the period of 1 second divided by the rate (rounded
    down, in nanoseconds), with one permit queued and the channel open.
    For a larger rate the period is zero and the construction panics. *)
Theorem NewRateLimiter_rates :
  forall requestsPerSecond,
    (requestsPerSecond <= 0 ->
     RateLimiter.NewRateLimiter requestsPerSecond = RateLimiter.NewRateLimiter 10) /\
    (1 <= requestsPerSecond <= 1000000000 ->
     exists rl,
       RateLimiter.NewRateLimiter requestsPerSecond = RateLimiter.Returns rl /\
       RateLimiter.interval (RateLimiter.ticker rl) = 1000000000 / requestsPerSecond /\
       0 < RateLimiter.interval (RateLimiter.ticker rl) /\
       RateLimiter.running (RateLimiter.ticker rl) = true /\
       RateLimiter.queued (RateLimiter.requests rl) = 1%nat /\
       RateLimiter.closed (RateLimiter.requests rl) = false) /\
    (1000000000 < requestsPerSecond ->
     RateLimiter.NewRateLimiter requestsPerSecond
       = RateLimiter.Panics "non-positive interval for NewTicker").
Proof.
  intros n. unfold RateLimiter.NewRateLimiter, RateLimiter.time_Second.
  split; [|split].
  - intros Hn. destruct (n <=? 0) eqn:Hle; [reflexivity | lia].
  - intros Hn. destruct (n <=? 0) eqn:Hle; [lia|]. cbv zeta.
    rewrite Z.quot_div_nonneg by lia.
    assert (Hpos : 0 < 1000000000 / n) by (apply Z.div_str_pos; lia).
    destruct (1000000000 / n <=? 0) eqn:Hzero; [lia|].
    eexists. repeat split; simpl; auto.
  - intros Hn. destruct (n <=? 0) eqn:Hle; [lia|]. cbv zeta.
    rewrite Z.quot_small by lia. reflexivity.
Qed.

(** Witness for X15: the rates -3, 5 and 2,000,000,000. *)
Lemma NewRateLimiter_rates_witness :
  RateLimiter.NewRateLimiter (-3) = RateLimiter.NewRateLimiter 10 /\
  (exists rl, RateLimiter.NewRateLimiter 5 = RateLimiter.Returns rl /\
              RateLimiter.interval (RateLimiter.ticker rl) = 200000000) /\
  RateLimiter.NewRateLimiter 2000000000
    = RateLimiter.Panics "non-positive interval for NewTicker".
Proof.
  split; [|split].
  - apply (NewRateLimiter_rates (-3)). lia.
  - destruct (NewRateLimiter_rates 5) as (_ & Hmid & _).
    destruct Hmid as (rl & Hnew & Hinterval & _); [lia|].
    exists rl. split; [exact Hnew | exact Hinterval].
  - apply (NewRateLimiter_rates 2000000000). lia.
Defined.

Lemma limiter_step_queued rl op rl' :
  (RateLimiter.queued (RateLimiter.requests rl) <= 1)%nat ->
  limiter_step rl op = RateLimiter.Returns rl' ->
  (RateLimiter.queued (RateLimiter.requests rl') <= 1)%nat.
Proof.
  intros Hq. destruct op; simpl.
  - unfold RateLimiter.tick. destruct (RateLimiter.closed _); [discriminate|].
    destruct (_ <? 1)%nat; intros [= <-]; simpl; lia.
  - unfold RateLimiter.Wait. destruct (RateLimiter.queued _) as [|q] eqn:Hqueue.
    + destruct (RateLimiter.closed _); [|discriminate]. intros [= <-]. lia.
    + intros [= <-]. simpl. lia.
  - unfold RateLimiter.Close. destruct (RateLimiter.closed _); [discriminate|].
    intros [= <-]. simpl. lia.
Qed.

(** X16. Permits never accumulate: from a limiter built by
    [NewRateLimiter], after any interleaving of ticks, waits and closes
    that does not panic or block, at most one permit is queued. *)
Theorem RateLimiter_at_most_one_permit :
  forall requestsPerSecond rl ops rl',
    RateLimiter.NewRateLimiter requestsPerSecond = RateLimiter.Returns rl ->
    limiter_run rl ops = RateLimiter.Returns rl' ->
    (RateLimiter.queued (RateLimiter.requests rl') <= 1)%nat.
Proof.
  intros n rl ops rl' Hnew.
  assert (Hq : (RateLimiter.queued (RateLimiter.requests rl) <= 1)%nat).
  { revert Hnew. unfold RateLimiter.NewRateLimiter.
    destruct (_ <=? 0); [discriminate|]. intros [= <-]. simpl. lia. }
  clear Hnew. revert rl Hq. induction ops as [|op rest IH]; intros rl Hq; simpl.
  - intros [= <-]. exact Hq.
  - destruct (limiter_step rl op) as [rl1| |] eqn:Hstep; simpl; try discriminate.
    apply IH. exact (limiter_step_queued rl op rl1 Hq Hstep).
Qed.

(** Witness for X16: a long idle period, then one wait. *)
Lemma RateLimiter_at_most_one_permit_witness :
  exists rl rl',
    RateLimiter.NewRateLimiter 5 = RateLimiter.Returns rl /\
    limiter_run rl [OpTick; OpTick; OpTick; OpWait; OpTick; OpTick] = RateLimiter.Returns rl' /\
    (RateLimiter.queued (RateLimiter.requests rl') <= 1)%nat.
Proof.
  set (rl := {| RateLimiter.ticker :=
                  {| RateLimiter.interval := 200000000; RateLimiter.running := true |};
                RateLimiter.requests :=
                  {| RateLimiter.queued := 1; RateLimiter.closed := false |} |}).
  exists rl, rl. split; [reflexivity|]. split; [reflexivity|].
  apply (RateLimiter_at_most_one_permit 5 rl
           [OpTick; OpTick; OpTick; OpWait; OpTick; OpTick] rl); reflexivity.
Defined.

Lemma limiter_ticks rl k :
  RateLimiter.closed (RateLimiter.requests rl) = false ->
  (RateLimiter.queued (RateLimiter.requests rl) <= 1)%nat ->
  (1 <= k)%nat \/ RateLimiter.queued (RateLimiter.requests rl) = 1%nat ->
  forall rest,
    limiter_run rl (repeat OpTick k ++ rest)%list
    = limiter_run {| RateLimiter.ticker := RateLimiter.ticker rl;
                     RateLimiter.requests :=
                       {| RateLimiter.queued := 1; RateLimiter.closed := false |} |} rest.
Proof.
  revert rl. induction k as [|k IH]; intros rl Hopen Hq Hk rest; simpl.
  - destruct Hk as [Hk|Hone]; [lia|].
    destruct rl as [tk [q c]]. simpl in *. now subst.
  - unfold RateLimiter.tick. rewrite Hopen.
    destruct (_ <? 1)%nat eqn:Hlt; simpl.
    + rewrite IH; simpl; auto.
    + apply Nat.ltb_ge in Hlt. rewrite IH; auto. right. lia.
Qed.

(** X17. Bursts are capped at one: on an open limiter holding at most
    one permit, after any number of ticks (at least one, or none if a
    permit is queued) exactly one [Wait] returns at once, leaving no
    permit, and the next [Wait] blocks until a further tick. *)
Theorem RateLimiter_burst_of_one :
  forall rl k,
    RateLimiter.closed (RateLimiter.requests rl) = false ->
    (RateLimiter.queued (RateLimiter.requests rl) <= 1)%nat ->
    (1 <= k)%nat \/ RateLimiter.queued (RateLimiter.requests rl) = 1%nat ->
    (exists rl',
        limiter_run rl (repeat OpTick k ++ [OpWait])%list = RateLimiter.Returns rl' /\
        RateLimiter.queued (RateLimiter.requests rl') = 0%nat) /\
    limiter_run rl (repeat OpTick k ++ [OpWait; OpWait])%list = RateLimiter.Blocks /\
    exists rl',
      limiter_run rl (repeat OpTick k ++ [OpWait; OpTick; OpWait])%list
        = RateLimiter.Returns rl'.
Proof.
  intros rl k Hopen Hq Hk.
  rewrite !(limiter_ticks rl k Hopen Hq Hk). simpl.
  split; [|split]; try reflexivity; eexists; split; reflexivity || reflexivity.
Qed.

(** Witness for X17: a fresh limiter left idle for a thousand ticks. *)
Lemma RateLimiter_burst_of_one_witness :
  exists rl,
    RateLimiter.NewRateLimiter 5 = RateLimiter.Returns rl /\
    limiter_run rl (repeat OpTick 1000 ++ [OpWait; OpWait])%list = RateLimiter.Blocks.
Proof.
  eexists. split; [reflexivity|].
  apply RateLimiter_burst_of_one; simpl; auto.
Defined.

Lemma limiter_waits_closed rl k :
  RateLimiter.closed (RateLimiter.requests rl) = true ->
  exists rl',
    limiter_run rl (repeat OpWait k) = RateLimiter.Returns rl' /\
    RateLimiter.closed (RateLimiter.requests rl') = true.
Proof.
  revert rl. induction k as [|k IH]; intros rl Hclosed; simpl.
  - now exists rl.
  - unfold RateLimiter.Wait. destruct (RateLimiter.queued _) as [|q]; simpl.
    + rewrite Hclosed. simpl. now apply IH.
    + apply IH. simpl. exact Hclosed.
Qed.

(** X18. After [Close] the limiter limits nothing: on a limiter whose
    channel is closed every [Wait] returns at once, any number of times in
    a row; a tick that reaches the refill goroutine then panics on the
    send. *)
Theorem RateLimiter_closed_never_blocks :
  forall rl rl' k,
    RateLimiter.Close rl = RateLimiter.Returns rl' ->
    (exists rl'', limiter_run rl' (repeat OpWait k) = RateLimiter.Returns rl'') /\
    RateLimiter.tick rl' = RateLimiter.Panics "send on closed channel".
Proof.
  intros rl rl' k. unfold RateLimiter.Close.
  destruct (RateLimiter.closed (RateLimiter.requests rl)); [discriminate|].
  intros [= <-]. split.
  - destruct (limiter_waits_closed
                {| RateLimiter.ticker := RateLimiter.ticker_Stop (RateLimiter.ticker rl);
                   RateLimiter.requests :=
                     {| RateLimiter.queued := RateLimiter.queued (RateLimiter.requests rl);
                        RateLimiter.closed := true |} |} k eq_refl) as (rl'' & Hrun & _).
    now exists rl''.
  - reflexivity.
Qed.

(** Witness for X18: five waits in a row on a closed limiter. *)
Lemma RateLimiter_closed_never_blocks_witness :
  exists rl rl' rl'',
    RateLimiter.NewRateLimiter 5 = RateLimiter.Returns rl /\
    RateLimiter.Close rl = RateLimiter.Returns rl' /\
    limiter_run rl' (repeat OpWait 5) = RateLimiter.Returns rl''.
Proof.
  eexists. eexists.
  destruct (RateLimiter_closed_never_blocks
              {| RateLimiter.ticker :=
                   {| RateLimiter.interval := 200000000; RateLimiter.running := true |};
                 RateLimiter.requests :=
                   {| RateLimiter.queued := 1; RateLimiter.closed := false |} |}
              _ 5 eq_refl) as [[rl'' Hrun] _].
  exists rl''. split; [reflexivity|]. split; [reflexivity | exact Hrun].
Defined.

(* ===================================================================== *)
(** ** formatSize *)
(* ===================================================================== *)

Lemma formatSize_loop_spec (bytes : Z) (fuel : nat) :
  bytes < 2 ^ 63 ->
  forall n div exp,
    1 <= n < 1024 ^ Z.of_nat fuel ->
    div = 1024 ^ Z.of_nat (S exp) ->
    div * n <= bytes < div * (n + 1) ->
    exists div' exp',
      formatSize_loop fuel n div exp = Scaled div' exp' /\
      div' = 1024 ^ Z.of_nat (S exp') /\
      div' <= bytes < 1024 * div'.
Proof.
  intros Hbytes. induction fuel as [|fuel IH]; intros n div exp Hn Hdiv Hinv.
  - simpl in Hn. lia.
  - cbn [formatSize_loop]. destruct (n >=? 1024) eqn:Hbig.
    + apply Z.geb_le in Hbig.
      assert (Hdpos : 0 < div) by (subst div; apply Z.pow_pos_nonneg; lia).
      assert (Hq : Z.quot n 1024 = n / 1024) by (apply Z.quot_div_nonneg; lia).
      pose proof (Z.div_mod n 1024 ltac:(lia)) as Hdm.
      pose proof (Z.mod_pos_bound n 1024 ltac:(lia)) as Hmod.
      assert (Hwrap : int64 (div * 1024) = div * 1024).
      { apply int64_small. nia. }
      rewrite Hq, Hwrap.
      apply IH.
      * split; [lia|].
        apply Z.div_lt_upper_bound; [lia|].
        replace (Z.of_nat (S fuel)) with (Z.succ (Z.of_nat fuel)) in Hn by lia.
        rewrite Z.pow_succ_r in Hn by lia. lia.
      * subst div. replace (Z.of_nat (S (S exp))) with (Z.succ (Z.of_nat (S exp))) by lia.
        rewrite Z.pow_succ_r by lia. lia.
      * nia.
    + assert (Hsmall : n < 1024).
      { destruct (Z.geb_spec n 1024); [discriminate | lia]. }
      exists div, exp. split; [reflexivity|]. split; [exact Hdiv|]. nia.
Qed.

(** X19. For every int64 size, [formatSize] prints the plain byte count
    below 1024 (negative sizes included); from 1024 on, its loop ends with
    the divisor [1024^(exp+1)], the largest power of 1024 not above the
    size, computed without int64 overflow, and with [exp] at most 5, so
    that the index into "KMGTPE" is always in range. *)
Theorem formatSize_unit_in_range :
  forall bytes,
    - 2 ^ 63 <= bytes < 2 ^ 63 ->
    (bytes < 1024 -> formatSize_unit bytes = PlainBytes) /\
    (1024 <= bytes ->
     exists div exp,
       formatSize_unit bytes = Scaled div exp /\
       (exp <= 5)%nat /\
       div = 1024 ^ Z.of_nat (S exp) /\
       div <= bytes < 1024 * div).
Proof.
  intros bytes Hrange. unfold formatSize_unit. split.
  - intros Hsmall. destruct (Z.ltb_spec bytes 1024); [reflexivity | lia].
  - intros Hbig. destruct (Z.ltb_spec bytes 1024); [lia|].
    assert (Hq : Z.quot bytes 1024 = bytes / 1024) by (apply Z.quot_div_nonneg; lia).
    pose proof (Z.div_mod bytes 1024 ltac:(lia)) as Hdm.
    pose proof (Z.mod_pos_bound bytes 1024 ltac:(lia)) as Hmod.
    rewrite Hq.
    destruct (formatSize_loop_spec bytes 64 ltac:(lia) (bytes / 1024) 1024 0)
      as (div & exp & Hloop & Hdiv & Hbounds).
    + split; [lia|]. apply Z.div_lt_upper_bound; [lia|].
      assert (2 ^ 63 < 1024 * 1024 ^ Z.of_nat 64) by (vm_compute; reflexivity). lia.
    + reflexivity.
    + lia.
    + exists div, exp. split; [exact Hloop|]. split; [|split; assumption].
      destruct (le_lt_dec exp 5) as [|Hexp]; [assumption|exfalso].
      assert (Hpow : 1024 ^ 7 <= 1024 ^ Z.of_nat (S exp))
        by (apply Z.pow_le_mono_r; lia).
      assert (H63 : 2 ^ 63 < 1024 ^ 7) by (vm_compute; reflexivity).
      lia.
Qed.

(** Witness for X19: 1536 bytes are printed in K, the largest int64 in
    E. *)
Lemma formatSize_unit_in_range_witness :
  formatSize_unit 1536 = Scaled 1024 0 /\
  formatSize_unit (2 ^ 63 - 1) = Scaled (1024 ^ 6) 5 /\
  formatSize_unit (-5) = PlainBytes.
Proof.
  split; [|split].
  - destruct (formatSize_unit_in_range 1536) as [_ Hbig]; [lia|].
    destruct Hbig as (div & exp & Hunit & _); [lia|].
    rewrite Hunit. vm_compute in Hunit. injection Hunit as <- <-. reflexivity.
  - destruct (formatSize_unit_in_range (2 ^ 63 - 1)) as [_ Hbig]; [lia|].
    destruct Hbig as (div & exp & Hunit & _); [lia|].
    rewrite Hunit. vm_compute in Hunit. injection Hunit as <- <-. reflexivity.
  - apply (formatSize_unit_in_range (-5)); lia.
Defined.

(* ===================================================================== *)
(** ** Repository client, publishing and the MCP tools *)
(* ===================================================================== *)

(** X20. [ListRepositoryPackages] clamps its arguments before it asks:
    a page below 1 is asked as page 1, a limit outside 1..100 as limit 20,
    other values go through unchanged; so the request always carries a page
    of at least 1 and a limit between 1 and 100, and a returned list is the
    [data] of a 200 reply with [success] set to exactly that request. *)
Theorem ListRepositoryPackages_clamps :
  forall http_list repositoryURL page limit,
    let asked_page := Z.max 1 page in
    let asked_limit := if bool_decide (1 <= limit <= 100) then limit else 20 in
    1 <= asked_page /\ 1 <= asked_limit <= 100 /\
    ListRepositoryPackages http_list repositoryURL page limit
      = ListRepositoryPackages http_list repositoryURL asked_page asked_limit /\
    forall data,
      ListRepositoryPackages http_list repositoryURL page limit = inr data ->
      exists envelope,
        http_list {| req_url := repositoryURL ++ "/api/v1/packages?page="
                                  ++ pretty asked_page ++ "&limit=" ++ pretty asked_limit;
                     req_authorization := None |}
          = Reply 200 (Some envelope) /\
        le_Success envelope = true /\ le_Data envelope = Some data.
Proof.
  intros http_list url page limit asked_page asked_limit.
  assert (Hpage : (if page <? 1 then 1 else page) = asked_page).
  { subst asked_page. destruct (Z.ltb_spec page 1); lia. }
  assert (Hlimit : (if (limit <? 1) || (100 <? limit) then 20 else limit) = asked_limit).
  { subst asked_limit.
    destruct (Z.ltb_spec limit 1), (Z.ltb_spec 100 limit); simpl;
      case_bool_decide; lia. }
  assert (Hp : 1 <= asked_page) by (subst asked_page; lia).
  assert (Hl : 1 <= asked_limit <= 100).
  { subst asked_limit. case_bool_decide; lia. }
  split; [exact Hp|]. split; [exact Hl|].
  assert (Hpage' : (if asked_page <? 1 then 1 else asked_page) = asked_page).
  { destruct (Z.ltb_spec asked_page 1); lia. }
  assert (Hlimit' : (if (asked_limit <? 1) || (100 <? asked_limit) then 20 else asked_limit)
                    = asked_limit).
  { destruct (Z.ltb_spec asked_limit 1), (Z.ltb_spec 100 asked_limit); simpl; lia. }
  unfold ListRepositoryPackages. rewrite Hpage, Hlimit, Hpage', Hlimit'.
  split; [reflexivity|].
  intros data.
  destruct (http_list _) as [|status [envelope|]]; try discriminate;
    destruct (status =? 200) eqn:Hstatus; simpl; try discriminate.
  apply Z.eqb_eq in Hstatus. subst status.
  destruct (le_Success envelope) eqn:Hsuccess; simpl.
  - destruct (le_Data envelope) as [data'|] eqn:Hdata; [|discriminate].
    intros [= <-]. now exists envelope.
  - destruct (negb _); discriminate.
Qed.

(** Witness for X20: page 0 with limit 500 is asked as page 1 with
    limit 20. *)
Lemma ListRepositoryPackages_clamps_witness :
  let listing := {| plr_Packages := []; plr_Total := 0; plr_Page := 1; plr_Limit := 20;
                    plr_TotalPages := 0 |} in
  let http_list (req : Request) :=
    if String.eqb (req_url req) "https://p3/api/v1/packages?page=1&limit=20"
    then Reply 200 (Some {| le_Success := true; le_Data := Some listing;
                            le_Error := ""; le_Message := "" |})
    else Reply 404 None in
  ListRepositoryPackages http_list "https://p3" 0 500 = inr listing.
Proof.
  intros listing http_list.
  destruct (ListRepositoryPackages_clamps http_list "https://p3" 0 500)
    as (_ & _ & Hsame & _).
  rewrite Hsame. vm_compute. reflexivity.
Defined.

(** X21. With [createArchive] as shipped, [BuildPackage] fails for
    every input, and so does [PublishPackage]: it fails at the manifest or
    at the build, hence never uploads, and never reaches the indexing of
    the first configured repository, so that it does not panic even with
    an empty repository list. *)
Theorem PublishPackage_never_succeeds :
  forall env up compressionLevel registryURL token outputPath format w,
    BuildPackage env outputPath format compressionLevel w <> None /\
    ((exists cause,
         PublishPackage env up compressionLevel registryURL token w
           = PublishFails (PubManifest cause)) \/
     PublishPackage env up compressionLevel registryURL token w
       = PublishFails (PubBuild (PubCreateArchive PubArchive))).
Proof.
  intros env up level registryURL token outputPath format w.
  unfold PublishPackage, BuildPackage, createArchive.
  destruct (manifest_in env w ".") as [manifest|cause]; simpl.
  - split; [discriminate | right; reflexivity].
  - split; [discriminate | left; now exists cause].
Qed.

(** X22. The install, uninstall and update tools refuse to run without
    a name: when the arguments hold no non-empty string under "name" (the
    key is absent, or its value is not a string, or it is empty) each of
    them reports that the name is required and leaves the world untouched;
    and that report is given in no other case. *)
Theorem tools_require_name :
  forall env args w,
    let handlers := [installPackage env args; uninstallPackage env args;
                     updatePackage env args] in
    ((forall name, args !! "name" = Some (JString name) -> name = "") ->
     Forall (fun handler => handler w = (inl ToolNameRequired, w)) handlers) /\
    (Exists (fun handler => fst (handler w) = inl ToolNameRequired) handlers ->
     forall name, args !! "name" = Some (JString name) -> name = "").
Proof.
  intros env args w handlers. subst handlers.
  unfold installPackage, uninstallPackage, updatePackage, report, getString.
  split.
  - intros Hname.
    assert (Hempty : match args !! "name" with Some (JString str) => str | _ => "" end = "").
    { destruct (args !! "name") as [[| | |name| |]|]; auto. }
    rewrite Hempty. repeat constructor.
  - intros Hexists name Hargs. rewrite Hargs in Hexists.
    destruct (decide (name = "")) as [|Hne]; [assumption|exfalso].
    rewrite (bool_decide_eq_false_2 _ Hne) in Hexists.
    repeat (apply Exists_cons in Hexists as [Hexists|Hexists];
            [ match type of Hexists with
              | context [match ?run with _ => _ end] =>
                  destruct run as [[[]|e] w']; discriminate Hexists
              end | ]).
    inversion Hexists.
Qed.

(** Witness for X22: the name is given as a number. *)
Lemma tools_require_name_witness :
  let env := Example.env Example.unpack "demo@1.0.0" in
  let w := Example.world [Example.P3] ∅ ∅ ∅ in
  installPackage env {[ "name" := JNumber Example.one ]} w = (inl ToolNameRequired, w).
Proof.
  intros env w.
  destruct (tools_require_name env {[ "name" := JNumber Example.one ]} w) as [Hrefuse _].
  assert (Hall := Hrefuse ltac:(intros name [=])).
  now inversion Hall.
Defined.

(** X23. With a name, the install tool runs [InstallPackage] for that
    name with [dev] unset, and reads its other arguments leniently: a
    "global" or "force" that is absent or not a JSON boolean counts as
    false, a "version", "arch" or "os" that is absent or not a string as
    empty. The world afterwards is the one [InstallPackage] leaves; an
    error of [InstallPackage] is passed on, and on success the text names
    the requested package. *)
Theorem installPackage_tool_defaults :
  forall env args name w,
    args !! "name" = Some (JString name) -> name <> "" ->
    let flag key := match args !! key with Some (JBool b) => b | _ => false end in
    let text key := match args !! key with Some (JString s) => s | _ => "" end in
    let run := InstallPackage env name (text "version") (flag "global") (flag "force")
                              false (text "arch") (text "os") w in
    snd (installPackage env args w) = snd run /\
    fst (installPackage env args w)
      = match fst run with
        | Ok _ => inr ("Пакет " ++ name ++ " успешно установлен")
        | Err e => inl (ToolManager e)
        end.
Proof.
  intros env args name w Hname Hne flag text run. subst run flag text.
  unfold installPackage, report, getString, getBool. rewrite Hname.
  rewrite (bool_decide_eq_false_2 _ Hne).
  destruct (InstallPackage env name _ _ _ false _ _ w) as [[[]|e] w']; split; reflexivity.
Qed.

(** Witness for X23: "global" is given as the string "true", so demo is
    installed into the local scope. *)
Lemma installPackage_tool_defaults_witness :
  let env := Example.env Example.unpack "demo@1.0.0" in
  let w := Example.world [Example.P3] ∅ ∅ ∅ in
  let args := {[ "name" := JString "demo"; "global" := JString "true" ]} in
  Global <$> getInstalledPackage (manager (snd (installPackage env args w))) "demo"
    = Some false.
Proof.
  intros env w args.
  destruct (installPackage_tool_defaults env args "demo" w) as [Hworld _].
  - vm_compute. reflexivity.
  - discriminate.
  - rewrite Hworld. vm_compute. reflexivity.
Defined.
